(** * telegram_finance_bot: the callback-ticket and review-batch layer

    A shallow embedding of [notion_manager.py] and [telegram_manager.py]:
    the Notion property normalizer and the paginated fetch, the ticket
    store ([callback_map]), the per-chat message log ([user_messages]) and
    the two handlers that drive them.  The remote services (Notion, the
    Telegram transport, the random source) are an explicit environment that
    answers every outgoing call; a handler run returns its outcome, the new
    bot state and the list of outgoing calls it made, in order. *)

From stdpp Require Import gmap strings list fin_maps.
From Stdlib Require Import ZArith Ascii String DecimalString Permutation Sorted.

Open Scope string_scope.
Open Scope Z_scope.
Open Scope list_scope.

(** ** Python built-ins the program relies on *)

Module Py.

(** A JSON number as Python sees it: an [int], or a [float] carried with
    the text that [str] prints for it. *)
Inductive number :=
| Int (z : Z)
| Float (repr : string).

(** [str(n)] *)
Definition str (n : number) : string :=
  match n with
  | Int z => NilZero.string_of_int (Z.to_int z)
  | Float repr => repr
  end.

(** Truth value of a string: only the empty string is falsy. *)
Definition truthy (s : string) : bool :=
  match s with
  | EmptyString => false
  | String _ _ => true
  end.

(** [x or d] on strings. *)
Definition or_else (x d : string) : string :=
  if truthy x then x else d.

(** [sep.join(parts)] *)
Definition join (sep : string) (parts : list string) : string :=
  String.concat sep parts.

(** [s.startswith(p)] *)
Definition startswith (s p : string) : bool := String.prefix p s.

(** [s.split(sep, 1)] for a one-character separator: the text before the
    first separator and the text after it, or [s] alone. *)
Fixpoint split1 (sep : ascii) (s : string) : list string :=
  match s with
  | EmptyString => [EmptyString]
  | String a rest =>
      if Ascii.eqb a sep then [EmptyString; rest]
      else match split1 sep rest with
           | [x] => [String a x]
           | x :: more => String a x :: more
           | [] => [s]
           end
  end.

(** [html.escape(s)] with [quote=True]: the five replacements, ampersand
    first, so that the text of an entity is never escaped again; that is
    one substitution per character of the input. *)
Definition escape_char (a : ascii) : string :=
  if Ascii.eqb a "&" then "&amp;"
  else if Ascii.eqb a "<" then "&lt;"
  else if Ascii.eqb a ">" then "&gt;"
  else if Ascii.eqb a (ascii_of_nat 34) then "&quot;"
  else if Ascii.eqb a "'" then "&#x27;"
  else String a EmptyString.

Fixpoint escape (s : string) : string :=
  match s with
  | EmptyString => EmptyString
  | String a rest => escape_char a +:+ escape rest
  end.

(** *** [secrets.token_urlsafe]

    [base64.urlsafe_b64encode(token_bytes(n)).rstrip(b'=').decode()]:
    three bytes give four characters of the URL-safe alphabet; one or two
    trailing bytes give two or three characters once the padding is
    stripped. *)
Definition b64_alphabet : string :=
  "ABCDEFGHIJKLMNOPQRSTUVWXYZabcdefghijklmnopqrstuvwxyz0123456789-_".

Definition b64_char (i : Z) : ascii :=
  match String.get (Z.to_nat i) b64_alphabet with
  | Some a => a
  | None => "="%char
  end.

Definition byte_val (b : Byte.byte) : Z := Z.of_N (Byte.to_N b).

Fixpoint urlsafe_b64encode_nopad (bs : list Byte.byte) : string :=
  match bs with
  | [] => EmptyString
  | [b0] =>
      let n := byte_val b0 * 65536 in
      String (b64_char (n / 262144))
        (String (b64_char ((n / 4096) mod 64)) EmptyString)
  | [b0; b1] =>
      let n := byte_val b0 * 65536 + byte_val b1 * 256 in
      String (b64_char (n / 262144))
        (String (b64_char ((n / 4096) mod 64))
           (String (b64_char ((n / 64) mod 64)) EmptyString))
  | b0 :: b1 :: b2 :: rest =>
      let n := byte_val b0 * 65536 + byte_val b1 * 256 + byte_val b2 in
      String (b64_char (n / 262144))
        (String (b64_char ((n / 4096) mod 64))
           (String (b64_char ((n / 64) mod 64))
              (String (b64_char (n mod 64))
                 (urlsafe_b64encode_nopad rest))))
  end.

End Py.

(** ** notion_manager.py: property objects and their text *)

Module Notion.
Import Py.

(** A dictionary key read with [.get(k, default)] or tested for truth is
    an optional field; [None] stands for the missing key and for JSON
    [null] alike. *)
Record rich_text_piece := { plain_text : option string }.

Record select_option := { opt_name : string }.

Record tag := { tag_name : option string }.

Record date_value := { d_start : string }.

Record formula_value := {
  f_type : option string;
  f_string : option string;
  f_number : option number;
  f_boolean : option bool;
  f_date : option date_value
}.

Record relation_ref := { rel_id : string }.

(** A property object of a page: its ["type"] tag and the value stored
    under the key of that name. *)
Record prop_obj := {
  p_type : option string;
  p_title : option (list rich_text_piece);
  p_rich_text : option (list rich_text_piece);
  p_select : option select_option;
  p_multi_select : option (list tag);
  p_date : option date_value;
  p_number : option number;
  p_checkbox : option bool;
  p_formula : option formula_value;
  p_relation : option (list relation_ref)
}.

(** A page (row) of the data source.  [properties] keeps the order of
    the JSON object, which [props.values()] follows. *)
Record page := {
  pg_id : string;
  pg_url : option string;
  pg_properties : option (list (string * prop_obj))
}.

Definition piece_text (piece : rich_text_piece) : string :=
  default EmptyString (plain_text piece).

Definition text_of_title (prop : prop_obj) : string :=
  match default [] (p_title prop) with
  | [] => EmptyString
  | arr => join EmptyString (map piece_text arr)
  end.

Definition text_of_rich (prop : prop_obj) : string :=
  match default [] (p_rich_text prop) with
  | [] => EmptyString
  | arr => join EmptyString (map piece_text arr)
  end.

Definition text_of_select (prop : prop_obj) : string :=
  match p_select prop with
  | Some sel => opt_name sel
  | None => EmptyString
  end.

Definition text_of_multi (prop : prop_obj) : string :=
  join ", " (map (fun t => default EmptyString (tag_name t))
               (default [] (p_multi_select prop))).

Definition text_of_date (prop : prop_obj) : string :=
  match p_date prop with
  | Some d => d_start d
  | None => EmptyString
  end.

Definition text_of_number (prop : prop_obj) : string :=
  match p_number prop with
  | None => EmptyString
  | Some n => str n
  end.

Definition text_of_checkbox (prop : prop_obj) : string :=
  match p_checkbox prop with
  | Some true => "true"
  | _ => "false"
  end.

Definition text_of_formula (prop : prop_obj) : string :=
  match p_formula prop with
  | None => EmptyString
  | Some f =>
      match f_type f with
      | Some t =>
          if String.eqb t "string" then default EmptyString (f_string f)
          else if String.eqb t "number" then
            match f_number f with
            | None => EmptyString
            | Some n => str n
            end
          else if String.eqb t "boolean" then
            match f_boolean f with
            | Some true => "true"
            | _ => "false"
            end
          else if String.eqb t "date" then
            match f_date f with
            | Some d => d_start d
            | None => EmptyString
            end
          else EmptyString
      | None => EmptyString
      end
  end.

(** [prop.get("type") == t] *)
Definition has_type (prop : prop_obj) (t : string) : bool :=
  match p_type prop with
  | Some t' => String.eqb t' t
  | None => false
  end.

Definition coerce_prop_value (prop_obj : prop_obj) : string :=
  if has_type prop_obj "title" then text_of_title prop_obj
  else if has_type prop_obj "rich_text" then text_of_rich prop_obj
  else if has_type prop_obj "select" then text_of_select prop_obj
  else if has_type prop_obj "multi_select" then text_of_multi prop_obj
  else if has_type prop_obj "date" then text_of_date prop_obj
  else if has_type prop_obj "number" then text_of_number prop_obj
  else if has_type prop_obj "checkbox" then text_of_checkbox prop_obj
  else if has_type prop_obj "formula" then text_of_formula prop_obj
  else EmptyString.

(** *** The fixed configuration of [NotionManager.__init__] *)

Definition prop_expense_type : string := "Expense Type".
Definition prop_title : string := "Expense Record".
Definition prop_date : string := "Date".
Definition prop_amount : string := "Amount".
Definition page_size : Z := 50.

Inductive condition :=
| date_is_not_empty (b : bool)
| relation_is_empty (b : bool).

Record property_filter := {
  pf_property : string;
  pf_condition : condition
}.

(** [{"and": [...]}] *)
Inductive compound_filter :=
| filter_and (clauses : list property_filter).

Inductive direction := ascending | descending.

Record sort_rule := {
  sort_property : string;
  sort_direction : direction
}.

Definition filter : compound_filter :=
  filter_and
    [ {| pf_property := prop_date; pf_condition := date_is_not_empty true |};
      {| pf_property := prop_expense_type;
         pf_condition := relation_is_empty true |} ].

Definition sort_query : list sort_rule :=
  [ {| sort_property := "Date"; sort_direction := descending |} ].

(** *** [normalize_page] *)

(** The compact record for one row. *)
Record record := {
  page_id : string;
  title : string;
  date : string;
  amount : string;
  rec_url : string;
  has_expense_type : bool
}.

(** [for p in props.values(): if p.get("type") == t: x = f(p); break],
    with [x] preset to the empty string. *)
Fixpoint first_of_type (t : string) (f : prop_obj -> string)
    (props : list (string * prop_obj)) : string :=
  match props with
  | [] => EmptyString
  | (_, p) :: rest =>
      if has_type p t then f p else first_of_type t f rest
  end.

(** [props[k]] for a key known to be present; [k in props] is
    [is_Some (lookup_prop k props)]. *)
Fixpoint lookup_prop (k : string) (props : list (string * prop_obj))
    : option prop_obj :=
  match props with
  | [] => None
  | (k', p) :: rest => if String.eqb k' k then Some p else lookup_prop k rest
  end.

Definition normalize_page (page : page) : record :=
  let props := default [] (pg_properties page) in
  let title := first_of_type "title" coerce_prop_value props in
  let date_val :=
    match lookup_prop prop_date props with
    | Some p =>
        if has_type p "date" then text_of_date p
        else first_of_type "date" coerce_prop_value props
    | None => first_of_type "date" coerce_prop_value props
    end in
  let amount_val :=
    match lookup_prop prop_amount props with
    | Some p =>
        if has_type p "number" then text_of_number p
        else first_of_type "number" coerce_prop_value props
    | None => first_of_type "number" coerce_prop_value props
    end in
  {| page_id := pg_id page;
     title := or_else title "(untitled)";
     date := or_else date_val "—";
     amount := or_else amount_val "—";
     rec_url := default EmptyString (pg_url page);
     has_expense_type := false |}.

End Notion.

(** ** The runtime: exceptions, outgoing calls, the environment *)

Module Runtime.
Import Py Notion.

(** A dictionary key as [KeyError] reports it. *)
Inductive py_key :=
| KStr (s : string)
| KInt (z : Z).

(** The exceptions the program can meet.  [JSONDecodeError] (raised by
    [r.json()]) is the only [ValueError] among them; all are
    [Exception]s. *)
Inductive exn :=
| KeyError (k : py_key)
| IndexError
| TypeError (msg : string)
| JSONDecodeError (msg : string)
| HTTPError (msg : string)
| ApiException (msg : string).

Definition is_ValueError (e : exn) : bool :=
  match e with
  | JSONDecodeError _ => true
  | _ => false
  end.

Definition is_KeyError (e : exn) : bool :=
  match e with
  | KeyError _ => true
  | _ => false
  end.

(** [str(e)] *)
Definition exn_str (e : exn) : string :=
  match e with
  | KeyError (KStr s) => "'" +:+ s +:+ "'"
  | KeyError (KInt z) => NilZero.string_of_int (Z.to_int z)
  | IndexError => "list index out of range"
  | TypeError msg => msg
  | JSONDecodeError msg => msg
  | HTTPError msg => msg
  | ApiException msg => msg
  end.

(** How a call ended. *)
Inductive reply (A : Type) :=
| Returned (a : A)
| Raised (e : exn).
Arguments Returned {A} a.
Arguments Raised {A} e.

(** *** Telegram objects *)

Record InlineKeyboardButton := {
  btn_text : string;
  callback_data : string
}.

(** [InlineKeyboardMarkup(row_width=w)] after [keyboard.add( *buttons)]. *)
Record InlineKeyboardMarkup := {
  row_width : nat;
  buttons : list InlineKeyboardButton
}.

Record Message := {
  chat_id : Z;
  message_id : Z;
  text : option string
}.

(** A button tap.  [message] is the bot's own message that carries the
    button. *)
Record CallbackQuery := {
  cq_id : string;
  data : option string;
  message : Message
}.

(** *** Notion requests *)

(** The JSON body of [POST /v1/data_sources/{id}/query]. *)
Record query_body := {
  b_page_size : Z;
  b_start_cursor : option string;
  b_filter : option compound_filter;
  b_sorts : option (list sort_rule)
}.

(** The parsed response of a query. *)
Record query_data := {
  results : list page;
  has_more : option bool;
  next_cursor : option string
}.

Inductive query_reply :=
| QueryOk (d : query_data)
| QueryHTTPError (msg : string)
| QueryJSONDecodeError (msg : string).

(** *** Outgoing calls, with how each ended *)

Inductive event :=
| DeleteMessage (chat message : Z) (r : reply unit)
| SendMessage (chat : Z) (body : string)
    (reply_markup : option InlineKeyboardMarkup) (r : reply Z)
| EditMessageText (body : string) (chat message : Z) (r : reply unit)
| EditMessageReplyMarkup (chat message : Z) (r : reply unit)
| AnswerCallbackQuery (query : string) (note : string) (show_alert : bool)
    (r : reply unit)
| PostQuery (body : query_body) (r : reply query_data)
| PatchPage (page : string) (property : string)
    (relation : list relation_ref) (r : reply unit)
| TokenUrlsafe (nbytes : nat) (key : string).

(** The world outside the process.  Every outgoing call is numbered by
    the count of calls made before it since start-up (its tick), and the
    environment decides how the call at a tick ends. *)
Record env := {
  (** [os.environ.get] *)
  environ : string -> option string;
  (** the Telegram call at this tick raises, with this text *)
  telegram_fails : nat -> option string;
  (** the id Telegram gives the message sent at this tick *)
  telegram_message_id : nat -> Z;
  (** the answer of the data source to a query *)
  notion_query : nat -> query_body -> query_reply;
  (** the page update at this tick is refused, with this text *)
  notion_patch_fails : nat -> string -> string -> option string;
  (** byte [i] of the random bytes drawn at this tick *)
  urandom : nat -> nat -> Byte.byte
}.

(** *** The bot's own state: the two process-wide dictionaries *)

Record state := {
  user_messages : gmap Z (list Z);
  callback_map : gmap string (string * string)
}.

Definition initial : state :=
  {| user_messages := ∅; callback_map := ∅ |}.

(** *** The monad of handler code *)

Record result (A : Type) := {
  outcome : reply A;
  final : state;
  calls : list event
}.
Arguments outcome {A} r.
Arguments final {A} r.
Arguments calls {A} r.

Definition M (A : Type) : Type := env -> nat -> state -> result A.

Definition ret {A} (a : A) : M A :=
  fun _ _ s => {| outcome := Returned a; final := s; calls := [] |}.

Definition bind {A B} (m : M A) (f : A -> M B) : M B :=
  fun e n s =>
    let r := m e n s in
    match outcome r with
    | Returned a =>
        let r' := f a e (List.length (calls r) + n)%nat (final r) in
        {| outcome := outcome r'; final := final r';
           calls := calls r ++ calls r' |}
    | Raised x =>
        {| outcome := Raised x; final := final r; calls := calls r |}
    end.

Definition raise {A} (x : exn) : M A :=
  fun _ _ s => {| outcome := Raised x; final := s; calls := [] |}.

(** Run [m] and hand back how it ended; the body of a [try]. *)
Definition attempt {A} (m : M A) : M (reply A) :=
  fun e n s =>
    let r := m e n s in
    {| outcome := Returned (outcome r); final := final r;
       calls := calls r |}.

Notation "x <- m ;; k" := (bind m (fun x => k))
  (at level 100, m at next level, right associativity).
Notation "m ;;; k" := (bind m (fun _ => k))
  (at level 100, right associativity).

(** [try: m  except Exception: h] *)
Definition try_except {A} (m : M A) (h : exn -> M A) : M A :=
  r <- attempt m ;;
  match r with
  | Returned a => ret a
  | Raised x => h x
  end.

Definition ask : M env :=
  fun e _ s => {| outcome := Returned e; final := s; calls := [] |}.

Definition get : M state :=
  fun _ _ s => {| outcome := Returned s; final := s; calls := [] |}.

Definition put (s : state) : M unit :=
  fun _ _ _ => {| outcome := Returned tt; final := s; calls := [] |}.

(** One outgoing call: ask the environment at the current tick, record
    the call, and return or raise as it says. *)
Definition perform {A} (ask_env : env -> nat -> reply A)
    (ev : reply A -> event) : M A :=
  fun e n s =>
    let r := ask_env e n in
    {| outcome := r; final := s; calls := [ev r] |}.

Definition telegram_unit (e : env) (n : nat) : reply unit :=
  match telegram_fails e n with
  | Some msg => Raised (ApiException msg)
  | None => Returned tt
  end.

Definition delete_message (chat message : Z) : M unit :=
  perform telegram_unit (DeleteMessage chat message).

(** Returns the id of the message sent. *)
Definition send_message (chat : Z) (body : string)
    (reply_markup : option InlineKeyboardMarkup) : M Z :=
  perform
    (fun e n =>
       match telegram_fails e n with
       | Some msg => Raised (ApiException msg)
       | None => Returned (telegram_message_id e n)
       end)
    (SendMessage chat body reply_markup).

Definition edit_message_text (body : string) (chat message : Z) : M unit :=
  perform telegram_unit (EditMessageText body chat message).

Definition edit_message_reply_markup (chat message : Z) : M unit :=
  perform telegram_unit (EditMessageReplyMarkup chat message).

Definition answer_callback_query (query note : string) (show_alert : bool)
    : M unit :=
  perform telegram_unit (AnswerCallbackQuery query note show_alert).

(** [secrets.token_bytes(nbytes)], drawn at tick [n]. *)
Definition token_bytes (e : env) (n : nat) (nbytes : nat)
    : list Byte.byte :=
  map (urandom e n) (seq 0 nbytes).

(** [secrets.token_urlsafe(nbytes)] *)
Definition token_urlsafe (nbytes : nat) : M string :=
  fun e n s =>
    let key := urlsafe_b64encode_nopad (token_bytes e n nbytes) in
    {| outcome := Returned key; final := s;
       calls := [TokenUrlsafe nbytes key] |}.

End Runtime.

(** ** notion_manager.py: the methods of [NotionManager] that call out *)

Module NotionManager.
Import Py Notion Runtime.

(** [self.expense_type_ids]: the seven categories, each with the id the
    process environment gives it (or none). *)
Definition expense_type_ids (e : env) : list (string * option string) :=
  [ ("Food", environ e "FOOD_CAT_ID");
    ("Shopping", environ e "SHOPPING_CAT_ID");
    ("Transport", environ e "TRANSPORT_CAT_ID");
    ("Work & Learning", environ e "WORK_LEARNING_CAT_ID");
    ("Subscription", environ e "SUBSCRIPTION_CAT_ID");
    ("Buffer", environ e "BUFFER_CAT_ID");
    ("Investment", environ e "INVT_CAT_ID") ].

(** [session.post(url, json=body)], [raise_for_status()], [r.json()]. *)
Definition post_query (body : query_body) : M query_data :=
  perform
    (fun e n =>
       match notion_query e n body with
       | QueryOk d => Returned d
       | QueryHTTPError msg => Raised (HTTPError msg)
       | QueryJSONDecodeError msg => Raised (JSONDecodeError msg)
       end)
    (PostQuery body).

Definition query_rows (page_size : Z) (start_cursor : option string)
    (filter_ : option compound_filter) (sorts : option (list sort_rule))
    : M query_data :=
  let body :=
    {| b_page_size := page_size;
       b_start_cursor :=
         match start_cursor with
         | Some c => if truthy c then Some c else None
         | None => None
         end;
       b_filter := filter_;
       b_sorts :=
         match sorts with
         | Some [] => None
         | other => other
         end |} in
  post_query body.

(** What [read_rows] has built so far: [seen], [empty_page_records],
    [index_of_empty_records]. *)
Record progress := {
  seen : Z;
  empty_page_records : list record;
  index_of_empty_records : gmap string record
}.

(** The inner loop over the rows of one response.  [inr] is a [return]
    from inside the loop, [inl] the loop running to its end. *)
Fixpoint read_page (limit : Z) (len_results : Z) (rows : list page)
    (p : progress)
    : progress + (list record * gmap string record) :=
  match rows with
  | [] => inl p
  | page :: rest =>
      let formatted_page_dict := normalize_page page in
      let p' :=
        {| seen := seen p + 1;
           empty_page_records :=
             empty_page_records p ++ [formatted_page_dict];
           index_of_empty_records :=
             <[page_id formatted_page_dict := formatted_page_dict]>
               (index_of_empty_records p) |} in
      if limit <=? seen p' then
        inr (empty_page_records p', index_of_empty_records p')
      else if len_results <=? seen p' then
        inr (empty_page_records p', index_of_empty_records p')
      else read_page limit len_results rest p'
  end.

(** The outer loop, [for _ in range(self.page_size)].  The function
    value [None] is Python's [None], returned when the loop is left by
    [break] or runs out. *)
Fixpoint read_pages (iterations : nat) (limit : Z) (p : progress)
    (cursor : option string)
    : M (option (list record * gmap string record)) :=
  match iterations with
  | O => ret None
  | S iterations' =>
      let page_size := Z.min Notion.page_size (limit - seen p) in
      data <- query_rows page_size cursor (Some filter) (Some sort_query) ;;
      match results data with
      | [] =>
          ret (Some (empty_page_records p, index_of_empty_records p))
      | rows =>
          match read_page limit (Z.of_nat (List.length rows)) rows p with
          | inr returned => ret (Some returned)
          | inl p' =>
              match has_more data with
              | Some true => read_pages iterations' limit p' (next_cursor data)
              | _ => ret None
              end
          end
      end
  end.

(** The index after [recs] have been entered in it, in order. *)
Definition index_records (recs : list record) (index : gmap string record)
    : gmap string record :=
  fold_left (fun m r => <[page_id r := r]> m) recs index.

(** How many rows of its first response [read_rows] keeps. *)
Definition kept (limit : Z) (rows : list page) : nat :=
  Z.to_nat (Z.max 1 (Z.min limit (Z.of_nat (List.length rows)))).

(** The request that [read_rows] opens with. *)
Definition first_query (limit : Z) : query_body :=
  {| b_page_size := Z.min Notion.page_size (limit - 0);
     b_start_cursor := None;
     b_filter := Some filter;
     b_sorts := Some sort_query |}.

Definition read_rows (limit : Z)
    : M (option (list record * gmap string record)) :=
  read_pages (Z.to_nat Notion.page_size) limit
    {| seen := 0; empty_page_records := [];
       index_of_empty_records := ∅ |}
    None.

(** [session.patch(url, json=body)], [raise_for_status()]; returns
    [True]. *)
Definition set_expense_type (txn_page_id expense_type_page_id : string)
    : M bool :=
  perform
    (fun e n =>
       match notion_patch_fails e n txn_page_id expense_type_page_id with
       | Some msg => Raised (HTTPError msg)
       | None => Returned tt
       end)
    (PatchPage txn_page_id prop_expense_type
       [ {| rel_id := expense_type_page_id |} ]) ;;;
  ret true.

End NotionManager.

(** ** telegram_manager.py: [BotManager] *)

Module BotManager.
Import Py Notion Runtime NotionManager.

(** [self.user_messages[chat].append(message)] *)
Definition log_append (chat message : Z) : M unit :=
  s <- get ;;
  match user_messages s !! chat with
  | None => raise (KeyError (KInt chat))
  | Some sent =>
      put {| user_messages := <[chat := sent ++ [message]]> (user_messages s);
             callback_map := callback_map s |}
  end.

(** [self.user_messages[chat] = []] *)
Definition log_reset (chat : Z) : M unit :=
  s <- get ;;
  put {| user_messages := <[chat := []]> (user_messages s);
         callback_map := callback_map s |}.

(** [self.callback_map.pop(key)]: look the key up and remove it, in one
    step. *)
Definition callback_pop (key : string) : M (string * string) :=
  s <- get ;;
  match callback_map s !! key with
  | None => raise (KeyError (KStr key))
  | Some ids =>
      put {| user_messages := user_messages s;
             callback_map := delete key (callback_map s) |} ;;;
      ret ids
  end.

Definition _store_cb (txn_page_id expense_type_page_id : string)
    : M string :=
  key <- token_urlsafe 6 ;;
  s <- get ;;
  put {| user_messages := user_messages s;
         callback_map :=
           <[key := (txn_page_id, expense_type_page_id)]>
             (callback_map s) |} ;;;
  ret key.

(** The loop of [_keyboard_for] over the categories. *)
Fixpoint category_buttons (transaction_page_id : string)
    (items : list (string * option string))
    (acc : list InlineKeyboardButton) : M (list InlineKeyboardButton) :=
  match items with
  | [] => ret acc
  | (name, exp_id) :: rest =>
      match exp_id with
      | Some exp_id' =>
          if truthy exp_id' then
            callback_key <- _store_cb transaction_page_id exp_id' ;;
            category_buttons transaction_page_id rest
              (acc ++ [ {| btn_text := name;
                           callback_data := "SET:" +:+ callback_key |} ])
          else category_buttons transaction_page_id rest acc
      | None => category_buttons transaction_page_id rest acc
      end
  end.

Definition _keyboard_for (transaction_page_id : string)
    : M InlineKeyboardMarkup :=
  e <- ask ;;
  found <- category_buttons transaction_page_id (expense_type_ids e) [] ;;
  let all :=
    match found with
    | [] => [ {| btn_text := "No categories configured";
                 callback_data := "SET:disabled" |} ]
    | _ => found
    end in
  ret {| row_width := 2; buttons := all |}.

Definition newline : string := String (ascii_of_nat 10) EmptyString.

(** The [parts] list that [_format_record] builds before joining it. *)
Definition record_parts (rec : record) : list string :=
  let parts := [ "<b>" +:+ escape (title rec) +:+ "</b>" ] in
  let parts :=
    if truthy (date rec) then parts ++ [ "Date: " +:+ escape (date rec) ]
    else parts in
  let parts :=
    if truthy (amount rec)
    then parts ++ [ "Amount: " +:+ escape (amount rec) ]
    else parts in
  let parts :=
    if truthy (rec_url rec)
    then parts ++ [ "<a href=" +:+ String (ascii_of_nat 34) (rec_url rec)
                      +:+ String (ascii_of_nat 34) ">Open in Notion</a>" ]
    else parts in
  parts.

Definition _format_record (rec : record) : string :=
  join newline (record_parts rec).

Definition start (message : Message) : M unit :=
  send_message (chat_id message)
    "📈 Welcome! Send /search to assign categories to uncategorised transactions."
    None ;;;
  ret tt.

(** Lines 78 to 83: delete every message of the previous batch, each
    deletion in its own [try], then reset the chat's log. *)
Fixpoint delete_each (chat : Z) (ids : list Z) : M unit :=
  match ids with
  | [] => ret tt
  | message_id :: rest =>
      try_except (delete_message chat message_id) (fun _ => ret tt) ;;;
      delete_each chat rest
  end.

Definition clean_previous_batch (chat : Z) : M unit :=
  s <- get ;;
  delete_each chat (default [] (user_messages s !! chat)) ;;;
  log_reset chat.

(** Lines 112 to 116: one message per record, with its keyboard. *)
Fixpoint send_records (chat : Z) (records : list record) : M unit :=
  match records with
  | [] => ret tt
  | rec :: rest =>
      let body := _format_record rec in
      kb <- _keyboard_for (page_id rec) ;;
      sent <- send_message chat body (Some kb) ;;
      log_append chat sent ;;;
      send_records chat rest
  end.

Definition count_header (n : nat) : string :=
  "Found " +:+ NilZero.string_of_uint (Nat.to_uint n)
    +:+ " uncategorised record(s):".

(** Lines 89 to 116: the fetch and what is shown for it. *)
Definition show_uncategorised (chat loading : Z) : M unit :=
  fetched <- attempt
    (got <- read_rows 50 ;;
     match got with
     | Some (records, _index) => ret records
     | None => raise (TypeError "cannot unpack non-iterable NoneType object")
     end) ;;
  match fetched with
  | Raised x =>
      if is_ValueError x then
        edit_message_text "✅ Nothing to categorise. ValueError encountered"
          chat loading
      else raise x
  | Returned [] =>
      edit_message_text "✅ Nothing to categorise." chat loading
  | Returned records =>
      try_except
        (edit_message_text (count_header (List.length records)) chat loading)
        (fun _ => ret tt) ;;;
      send_records chat records
  end.

Definition loading_text : string :=
  "🔎 Gathering transactions, please wait…".

Definition categorise_transactions (message : Message) : M unit :=
  let chat := chat_id message in
  clean_previous_batch chat ;;;
  loading <- send_message chat loading_text None ;;
  log_append chat loading ;;;
  show_uncategorised chat loading.

(** [c.data.split(":", 1)[1]] *)
Definition key_of (d : string) : M string :=
  match split1 ":" d with
  | _ :: key :: _ => ret key
  | _ => raise IndexError
  end.

(** Lines 146 to 166, the [try] around the update of Notion: the update
    and the feedback after it, and the [except] that reports a failure. *)
Definition update_notion (c : CallbackQuery)
    (transaction_id exp_type_id : string) : M unit :=
  let chat := chat_id (message c) in
  let origin := message_id (message c) in
  try_except
    (set_expense_type transaction_id exp_type_id ;;;
     answer_callback_query (cq_id c) "Updated ✅" false ;;;
     try_except (edit_message_reply_markup chat origin)
       (fun _ => ret tt) ;;;
     try_except
       (match text (message c) with
        | Some t =>
            edit_message_text
              (t +:+ newline +:+ newline +:+ "✅ Categorised.")
              chat origin
        | None => raise (TypeError "unsupported operand type(s) for +")
        end)
       (fun _ => send_message chat "✅ Categorised." None ;;; ret tt))
    (fun x =>
       answer_callback_query (cq_id c) "Update failed ❌" false ;;;
       error_message <-
         send_message chat
           ("❌ Failed: <code>" +:+ escape (exn_str x) +:+ "</code>")
           None ;;
       log_append chat error_message).

Definition handle_set_type (c : CallbackQuery) : M unit :=
  match data c with
  | Some d =>
      if truthy d && startswith d "SET:" then
        key <- key_of d ;;
        if String.eqb key "disabled" then
          answer_callback_query (cq_id c) "No categories configured." true
        else
          popped <- attempt (callback_pop key) ;;
          match popped with
          | Raised x =>
              if is_KeyError x then
                answer_callback_query (cq_id c) "Invalid/expired button."
                  false
              else raise x
          | Returned (transaction_id, exp_type_id) =>
              update_notion c transaction_id exp_type_id
          end
      else answer_callback_query (cq_id c) "Ignoring." false
  | None => answer_callback_query (cq_id c) "Ignoring." false
  end.

(** The state once the ticket [key] has been popped. *)
Definition without_ticket (key : string) (s : state) : state :=
  {| user_messages := user_messages s;
     callback_map := delete key (callback_map s) |}.

(** *** Delivery of updates

    [__init__] routes [/start] to [start], [/search] to
    [categorise_transactions], and a button tap whose data begins with
    ["SET:"] to [handle_set_type]; other updates have no handler.  An
    exception that leaves a handler ends that update only. *)
Inductive update :=
| Start (m : Message)
| Search (m : Message)
| Tap (c : CallbackQuery).

Definition handler (u : update) : M unit :=
  match u with
  | Start m => start m
  | Search m => categorise_transactions m
  | Tap c =>
      match data c with
      | Some d =>
          if truthy d && startswith d "SET:" then handle_set_type c
          else ret tt
      | None => ret tt
      end
  end.

(** What the process has been through: each update with the calls its
    handler made. *)
Definition history := list (update * list event).

Fixpoint process_new_updates (us : list update) (e : env) (n : nat)
    (s : state) : state * history :=
  match us with
  | [] => (s, [])
  | u :: rest =>
      let r := handler u e n s in
      let '(s', h) :=
        process_new_updates rest e (List.length (calls r) + n)%nat
          (final r) in
      (s', (u, calls r) :: h)
  end.

End BotManager.

(** ** Vocabulary of the properties *)

Module Vocabulary.
Import Py Notion Runtime NotionManager BotManager.

(** The ids of the messages that these calls put into [chat]: the
    [send_message] calls to that chat that returned. *)
Fixpoint sent_ids (chat : Z) (cs : list event) : list Z :=
  match cs with
  | [] => []
  | SendMessage ch _ _ (Returned sent) :: rest =>
      if Z.eqb ch chat then sent :: sent_ids chat rest
      else sent_ids chat rest
  | _ :: rest => sent_ids chat rest
  end.

(** The [delete_message] calls of a clean-up: one per logged id, in the
    order of the log, the first at tick [n]. *)
Definition deletions (e : env) (n : nat) (chat : Z) (ids : list Z)
    : list event :=
  imap (fun i message =>
          DeleteMessage chat message (telegram_unit e (i + n)%nat)) ids.

(** [key] was drawn by [token_urlsafe] among these calls. *)
Definition minted (key : string) (cs : list event) : Prop :=
  exists nbytes, In (TokenUrlsafe nbytes key) cs.

(** Every ticket of [s'] was a ticket of [s] already, with the same pair,
    or has a key drawn among the calls [cs]. *)
Definition tickets_from (s : state) (cs : list event) (s' : state) : Prop :=
  forall key ids,
    callback_map s' !! key = Some ids ->
    callback_map s !! key = Some ids \/ minted key cs.

(** These calls are draws of ticket keys and nothing else. *)
Definition only_tokens (cs : list event) : Prop :=
  forall ev, In ev cs -> exists nbytes key, ev = TokenUrlsafe nbytes key.

(** No chat loses its log. *)
Definition logs_kept (s s' : state) : Prop :=
  forall chat,
    is_Some (user_messages s !! chat) -> is_Some (user_messages s' !! chat).

(** What holds of the state reached and of the updates handled to reach
    it: every ticket in the store was minted by a review, and every chat
    that had a review has a log. *)
Definition grounded (s : state) (h : history) : Prop :=
  (forall key ids,
      callback_map s !! key = Some ids ->
      exists m evs, In (Search m, evs) h /\ minted key evs) /\
  (forall m evs,
      In (Search m, evs) h -> is_Some (user_messages s !! chat_id m)).

(** The categories that get a button: those whose id is set and not
    empty, in the order of the table. *)
Fixpoint configured (items : list (string * option string))
    : list (string * string) :=
  match items with
  | [] => []
  | (name, Some exp) :: rest =>
      if truthy exp then (name, exp) :: configured rest
      else configured rest
  | (_, None) :: rest => configured rest
  end.

(** A button of a record's keyboard: its data is "SET:" and an
    eight-character key under which the store holds a pair for that
    record. *)
Definition button_of (txn : string) (s : state) (b : InlineKeyboardButton)
    : Prop :=
  exists key exp,
    callback_data b = "SET:" +:+ key /\
    String.length key = 8%nat /\
    callback_map s !! key = Some (txn, exp).

(** What a call may be after an update that went through. *)
Definition positive_feedback (ev : event) : Prop :=
  match ev with
  | AnswerCallbackQuery _ note _ _ => note = "Updated ✅"
  | SendMessage _ body _ _ => body = "✅ Categorised."
  | DeleteMessage _ _ _ => False
  | _ => True
  end.

(** All the calls of a history, in order. *)
Definition all_calls (h : history) : list event :=
  List.concat (map snd h).

(** The texts of the messages that these calls send into [chat], in
    order, whether or not Telegram accepts them. *)
Fixpoint sent_bodies (chat : Z) (cs : list event) : list string :=
  match cs with
  | [] => []
  | SendMessage ch body _ _ :: rest =>
      if Z.eqb ch chat then body :: sent_bodies chat rest
      else sent_bodies chat rest
  | _ :: rest => sent_bodies chat rest
  end.

(** The text of an answer to a tap. *)
Definition answer_note (ev : event) : option string :=
  match ev with
  | AnswerCallbackQuery _ note _ _ => Some note
  | _ => None
  end.

(** None of these calls deletes a message. *)
Definition no_deletes (cs : list event) : Prop :=
  forall chat message answer, ~ In (DeleteMessage chat message answer) cs.

(** The log of a chat, empty when the chat has none. *)
Definition log_of (s : state) (chat : Z) : list Z :=
  default [] (user_messages s !! chat).

(** Every id logged in [s'] was logged in [s] already or is the id of a
    message that these calls sent into that chat. *)
Definition logged_from (s : state) (cs : list event) (s' : state) : Prop :=
  forall chat message,
    In message (log_of s' chat) ->
    In message (log_of s chat) \/ In message (sent_ids chat cs).

(** Every message these calls delete was in the log of its chat. *)
Definition deletes_logged (s : state) (cs : list event) : Prop :=
  forall chat message answer,
    In (DeleteMessage chat message answer) cs ->
    In message (log_of s chat).

(** What holds of the state reached and of the calls made to reach it:
    the ids in the logs, and the ids of the messages deleted, are ids of
    messages the bot sent into that chat. *)
Definition own_messages (s : state) (h : history) : Prop :=
  (forall chat message,
      In message (log_of s chat) ->
      In message (sent_ids chat (all_calls h))) /\
  (forall chat message answer,
      In (DeleteMessage chat message answer) (all_calls h) ->
      In message (sent_ids chat (all_calls h))).

(** No key leaves the store (the pair under it may change). *)
Definition tickets_kept (s s' : state) : Prop :=
  forall key,
    is_Some (callback_map s !! key) -> is_Some (callback_map s' !! key).

End Vocabulary.

(** ** The data source behind the query endpoint *)

Module Store.
Import Py Notion Runtime.

(** Modelled from the spec: the remote tabular store is outside the
    repository; section 6 gives its query as "page size, cursor, filter
    predicate, sort spec -> results + continuation cursor + has-more
    flag".  A store is the list of its rows.  A clause holds of a row
    when the named property meets the condition. *)
Definition holds (row : page) (f : property_filter) : bool :=
  match lookup_prop (pf_property f) (default [] (pg_properties row)) with
  | Some p =>
      match pf_condition f with
      | date_is_not_empty b =>
          Bool.eqb (bool_decide (is_Some (p_date p))) b
      | relation_is_empty b =>
          Bool.eqb
            (match default [] (p_relation p) with
             | [] => true
             | _ => false
             end) b
      end
  | None => false
  end.

(** Modelled from the spec: a row passes the filter of a request when
    every clause of the conjunction holds; no filter passes every row. *)
Definition passes (f : option compound_filter) (row : page) : bool :=
  match f with
  | Some (filter_and clauses) => forallb (holds row) clauses
  | None => true
  end.

(** Modelled from the spec: the value a row is sorted by, the start of
    the date property of that name (ISO 8601 text, compared as text). *)
Definition sort_key (property : string) (row : page) : string :=
  match lookup_prop property (default [] (pg_properties row)) with
  | Some p => text_of_date p
  | None => EmptyString
  end.

(** Modelled from the spec: [precedes rules a b] when [a] may come before
    [b] under the sort rules, the first rule that tells them apart
    deciding. *)
Fixpoint precedes (rules : list sort_rule) (a b : page) : bool :=
  match rules with
  | [] => true
  | r :: rest =>
      match String.compare (sort_key (sort_property r) a)
              (sort_key (sort_property r) b) with
      | Eq => precedes rest a b
      | Lt =>
          match sort_direction r with
          | ascending => true
          | descending => false
          end
      | Gt =>
          match sort_direction r with
          | ascending => false
          | descending => true
          end
      end
  end.

(** Modelled from the spec: insertion into a sorted list, before the
    first row that the new row may precede. *)
Fixpoint insert_sorted (before : page -> page -> bool) (x : page)
    (l : list page) : list page :=
  match l with
  | [] => [x]
  | y :: rest =>
      if before x y then x :: y :: rest
      else y :: insert_sorted before x rest
  end.

(** Modelled from the spec: the store's sort, stable. *)
Fixpoint sort_rows (before : page -> page -> bool) (l : list page)
    : list page :=
  match l with
  | [] => []
  | x :: rest => insert_sorted before x (sort_rows before rest)
  end.

(** Modelled from the spec: a cursor names the row the next page starts
    at. *)
Fixpoint from_cursor (cursor : string) (l : list page) : list page :=
  match l with
  | [] => []
  | x :: rest =>
      if String.eqb (pg_id x) cursor then l else from_cursor cursor rest
  end.

(** Modelled from the spec: the largest page the store serves. *)
Definition max_page_size : Z := 100.

(** Modelled from the spec: the answer to one query: the rows that pass
    the filter, in sort order, from the cursor on, one page of them. *)
Definition query (rows : list page) (body : query_body) : query_data :=
  let selected := List.filter (passes (b_filter body)) rows in
  let ordered := sort_rows (precedes (default [] (b_sorts body))) selected in
  let pending :=
    match b_start_cursor body with
    | Some c => from_cursor c ordered
    | None => ordered
    end in
  let n := Z.to_nat (Z.min (b_page_size body) max_page_size) in
  let rest := drop n pending in
  {| results := take n pending;
     has_more := Some (match rest with [] => false | _ => true end);
     next_cursor :=
       match rest with
       | [] => None
       | x :: _ => Some (pg_id x)
       end |}.

(** An environment whose data source is the store [rows]; everything
    else is as in [base]. *)
Definition serving (rows : list page) (base : env) : env :=
  {| environ := environ base;
     telegram_fails := telegram_fails base;
     telegram_message_id := telegram_message_id base;
     notion_query := fun _ body => QueryOk (query rows body);
     notion_patch_fails := notion_patch_fails base;
     urandom := urandom base |}.

End Store.

(** ** Sample inputs *)

Module Samples.
Import Py Notion Runtime NotionManager BotManager.

(** A property object with nothing but its type tag. *)
Definition bare (t : string) : prop_obj :=
  {| p_type := Some t; p_title := None; p_rich_text := None;
     p_select := None; p_multi_select := None; p_date := None;
     p_number := None; p_checkbox := None; p_formula := None;
     p_relation := None |}.

Definition title_prop (parts : list string) : prop_obj :=
  {| p_type := Some "title";
     p_title := Some (map (fun s => {| plain_text := Some s |}) parts);
     p_rich_text := None; p_select := None; p_multi_select := None;
     p_date := None; p_number := None; p_checkbox := None;
     p_formula := None; p_relation := None |}.

Definition date_prop (d : option string) : prop_obj :=
  {| p_type := Some "date"; p_title := None; p_rich_text := None;
     p_select := None; p_multi_select := None;
     p_date := option_map (fun s => {| d_start := s |}) d;
     p_number := None; p_checkbox := None; p_formula := None;
     p_relation := None |}.

Definition relation_prop (ids : list string) : prop_obj :=
  {| p_type := Some "relation"; p_title := None; p_rich_text := None;
     p_select := None; p_multi_select := None; p_date := None;
     p_number := None; p_checkbox := None; p_formula := None;
     p_relation := Some (map (fun i => {| rel_id := i |}) ids) |}.

(** A row whose amount is a number-typed property holding no number. *)
Definition coffee_run : page :=
  {| pg_id := "page-1";
     pg_url := Some "https://www.notion.so/page-1";
     pg_properties :=
       Some [ ("Date", date_prop (Some "2025-10-03"));
              ("Expense Record", title_prop ["Coffee "; " Run"]);
              ("Amount", bare "number");
              ("Expense Type", relation_prop []) ] |}.

Definition number_prop (z : Z) : prop_obj :=
  {| p_type := Some "number"; p_title := None; p_rich_text := None;
     p_select := None; p_multi_select := None; p_date := None;
     p_number := Some (Int z); p_checkbox := None; p_formula := None;
     p_relation := None |}.

Definition two_digits (n : nat) : string :=
  (if (n <? 10)%nat then "0" else EmptyString)
    +:+ NilZero.string_of_uint (Nat.to_uint n).

(** Expense number [i]: dated, priced and not yet categorised; a higher
    number is a later date. *)
Definition expense (i : nat) : page :=
  {| pg_id := "row-" +:+ two_digits i;
     pg_url := None;
     pg_properties :=
       Some [ ("Expense Record", title_prop ["Expense " +:+ two_digits i]);
              ("Date",
               date_prop
                 (Some ("2025-" +:+ two_digits (1 + i / 28) +:+ "-"
                          +:+ two_digits (1 + i mod 28))));
              ("Amount", number_prop (Z.of_nat (3 * i + 5)));
              ("Expense Type", relation_prop []) ] |}.

(** A data source holding the expenses 0 to [n - 1], oldest first. *)
Definition ledger (n : nat) : list page := map expense (seq 0 n).

(** A row that already has a category, and a row without a date. *)
Definition categorised : page :=
  {| pg_id := "row-done";
     pg_url := None;
     pg_properties :=
       Some [ ("Expense Record", title_prop ["Rent"]);
              ("Date", date_prop (Some "2025-12-31"));
              ("Expense Type", relation_prop ["food-id"]) ] |}.

Definition undated : page :=
  {| pg_id := "row-undated";
     pg_url := None;
     pg_properties :=
       Some [ ("Expense Record", title_prop ["Cash"]);
              ("Date", date_prop None);
              ("Expense Type", relation_prop []) ] |}.

(** Five rows that match the fetch filter and two that do not, in no
    particular order. *)
Definition mixed_rows : list page :=
  [ expense 3; categorised; expense 0; expense 4; undated; expense 1;
    expense 2 ].

(** The six random bytes whose URL-safe encoding is the reserved key. *)
Definition disabled_bytes : list Byte.byte :=
  [Byte.x76; Byte.x2b; Byte.x1a; Byte.x6e; Byte.x57; Byte.x9d].

(** A quiet environment: one category configured, every call succeeds,
    message ids count up from 100, the data source is empty and the
    random source draws the bytes of [disabled_bytes] at every tick. *)
Definition unlucky : env :=
  {| environ :=
       fun k => if String.eqb k "FOOD_CAT_ID" then Some "food-id" else None;
     telegram_fails := fun _ => None;
     telegram_message_id := fun n => 100 + Z.of_nat n;
     notion_query :=
       fun _ _ =>
         QueryOk {| results := []; has_more := Some false;
                    next_cursor := None |};
     notion_patch_fails := fun _ _ _ => None;
     urandom := fun _ i => nth i disabled_bytes Byte.x00 |}.

(** A chat with one record message (id 104) on screen, and the ticket
    of its only button. *)
Definition awaiting_choice : state :=
  {| user_messages := {[ 7 := [100; 104] ]};
     callback_map := {[ "FRYXGBka" := ("page-1", "food-id") ]} |}.

Definition tap_food : CallbackQuery :=
  {| cq_id := "q1";
     data := Some "SET:FRYXGBka";
     message := {| chat_id := 7; message_id := 104;
                   text := Some "<b>Coffee  Run</b>" |} |}.

(** The update of Notion succeeds (tick 0) and is acknowledged (tick 1),
    the keyboard is removed (tick 2), but Telegram refuses the edit of
    the text (tick 3) and the confirmation sent in its place (tick 4);
    it accepts every later call. *)
Definition feedback_refused : env :=
  {| environ := environ unlucky;
     telegram_fails :=
       fun n => if (n =? 3)%nat then Some "message is not modified"
                else if (n =? 4)%nat then Some "Too Many Requests"
                else None;
     telegram_message_id := telegram_message_id unlucky;
     notion_query := notion_query unlucky;
     notion_patch_fails := fun _ _ _ => None;
     urandom := urandom unlucky |}.

(** An environment with two uncategorised expenses in its data source and
    a random source that draws different bytes at every tick. *)
Definition busy : env :=
  {| environ := environ unlucky;
     telegram_fails := fun _ => None;
     telegram_message_id := telegram_message_id unlucky;
     notion_query := fun _ body => QueryOk (Store.query (ledger 2) body);
     notion_patch_fails := fun _ _ _ => None;
     urandom :=
       fun n i =>
         default Byte.x00
           (Byte.of_N (N.of_nat ((n * 7 + i) mod 256))) |}.

Definition search_7 : Message :=
  {| chat_id := 7; message_id := 1; text := Some "/search" |}.

(** A data source whose own page size is at least the number of rows
    that pass the filter of a request: it answers with all of them, in
    the order of the request's sort rules, in one page, whatever page
    size the request names. *)
Definition in_one_page (rows : list page) : env :=
  {| environ := environ unlucky;
     telegram_fails := fun _ => None;
     telegram_message_id := telegram_message_id unlucky;
     notion_query :=
       fun _ body =>
         QueryOk
           {| results :=
                Store.sort_rows
                  (Store.precedes (default [] (b_sorts body)))
                  (List.filter (Store.passes (b_filter body)) rows);
              has_more := Some false;
              next_cursor := None |};
     notion_patch_fails := fun _ _ _ => None;
     urandom := urandom unlucky |}.

(** The six random bytes whose URL-safe encoding is "FRYXGBka". *)
Definition repeated_bytes : list Byte.byte :=
  [Byte.x15; Byte.x16; Byte.x17; Byte.x18; Byte.x19; Byte.x1a].

(** One category, every call succeeds; the data source holds expense 0
    when the first review asks (its query is the call at tick 1) and
    expense 1 afterwards; the random source draws the bytes of
    [repeated_bytes] at every tick. *)
Definition repeating_draws : env :=
  {| environ := environ unlucky;
     telegram_fails := fun _ => None;
     telegram_message_id := telegram_message_id unlucky;
     notion_query :=
       fun n body =>
         QueryOk
           (Store.query [expense (if (n <=? 1)%nat then 0 else 1)] body);
     notion_patch_fails := fun _ _ _ => None;
     urandom := fun _ i => nth i repeated_bytes Byte.x00 |}.

(** A tap on the only button of a record shown while no category is
    configured. *)
Definition tap_disabled : CallbackQuery :=
  {| cq_id := "q3";
     data := Some "SET:disabled";
     message := {| chat_id := 7; message_id := 104;
                   text := Some "<b>Coffee  Run</b>" |} |}.

End Samples.

(** Sample inputs of the further properties. *)
Module MoreSamples.
Import Py Notion Runtime NotionManager BotManager Samples.

(** A page whose configured date property is empty while another date
    property holds a date. *)
Definition undated_but_paid : page :=
  {| pg_id := "page-2";
     pg_url := None;
     pg_properties :=
       Some [ ("Paid on", date_prop (Some "2025-09-30"));
              ("Date", date_prop None);
              ("Amount", number_prop 12) ] |}.

(** A page whose property named Date is a text, with a date property
    after it. *)
Definition date_as_text : page :=
  {| pg_id := "page-3";
     pg_url := None;
     pg_properties :=
       Some [ ("Date", bare "rich_text");
              ("Booked", date_prop (Some "2025-08-01")) ] |}.

(** The update succeeds but Telegram refuses the edit of the text; the
    confirmation is sent in its place. *)
Definition edit_refused : env :=
  {| environ := environ unlucky;
     telegram_fails :=
       fun n => if (n =? 3)%nat then Some "message is not modified"
                else None;
     telegram_message_id := telegram_message_id unlucky;
     notion_query := notion_query unlucky;
     notion_patch_fails := fun _ _ _ => None;
     urandom := urandom unlucky |}.

(** Notion refuses the update of the sample chat's record. *)
Definition notion_refuses : env :=
  {| environ := environ unlucky;
     telegram_fails := fun _ => None;
     telegram_message_id := telegram_message_id unlucky;
     notion_query := notion_query unlucky;
     notion_patch_fails := fun _ _ _ => Some "404 Client Error: Not Found";
     urandom := urandom unlucky |}.

(** A ticket in the store and no log at all. *)
Definition ticket_without_log : state :=
  {| user_messages := ∅;
     callback_map := {[ "FRYXGBka" := ("page-1", "food-id") ]} |}.

(** Notion answers every query with a server error. *)
Definition notion_down : env :=
  {| environ := environ unlucky;
     telegram_fails := fun _ => None;
     telegram_message_id := telegram_message_id unlucky;
     notion_query := fun _ _ => QueryHTTPError "503 Server Error";
     notion_patch_fails := fun _ _ _ => None;
     urandom := urandom unlucky |}.

(** A tap whose data is not a ticket. *)
Definition tap_other : CallbackQuery :=
  {| cq_id := "q2"; data := Some "noop";
     message := {| chat_id := 7; message_id := 104;
                   text := Some "x" |} |}.

End MoreSamples.

(** * Properties *)

Import Py Notion Runtime NotionManager BotManager Vocabulary.

(** ** The normalizer *)

Lemma or_else_nonempty (x d : string) :
  d <> EmptyString -> or_else x d <> EmptyString.
Proof.
  intros Hd. unfold or_else. destruct x; simpl; [exact Hd | discriminate].
Qed.

Lemma or_else_empty (d : string) : or_else EmptyString d = d.
Proof. reflexivity. Qed.

Lemma escape_nonempty (s : string) :
  s <> EmptyString -> escape s <> EmptyString.
Proof.
  destruct s as [|a s]; [congruence|]. intros _. simpl.
  unfold escape_char.
  repeat match goal with
         | |- context [if ?b then _ else _] => destruct b
         end; discriminate.
Qed.

Lemma first_of_type_skip (t : string) (f : prop_obj -> string)
    (before after : list (string * prop_obj)) (k : string) (p : prop_obj) :
  Forall (fun kp => has_type kp.2 t = false) before ->
  has_type p t = true ->
  first_of_type t f (before ++ (k, p) :: after) = f p.
Proof.
  intros Hb Hp. induction Hb as [|[k' q] before Hq _ IH]; simpl.
  - now rewrite Hp.
  - simpl in Hq. now rewrite Hq.
Qed.

Lemma first_of_type_none (t : string) (f : prop_obj -> string)
    (props : list (string * prop_obj)) :
  Forall (fun kp => has_type kp.2 t = true -> f kp.2 = EmptyString) props ->
  first_of_type t f props = EmptyString.
Proof.
  induction 1 as [|[k p] props Hp _ IH]; simpl; [reflexivity|].
  simpl in Hp. destruct (has_type p t); auto.
Qed.

Lemma lookup_prop_In (k : string) (props : list (string * prop_obj))
    (p : prop_obj) :
  lookup_prop k props = Some p -> In (k, p) props.
Proof.
  induction props as [|[k' q] props IH]; simpl; [discriminate|].
  destruct (String.eqb k' k) eqn:E.
  - apply String.eqb_eq in E. intros [= ->]. left. now subst.
  - intros H. right. auto.
Qed.

Lemma normalize_title_nonempty (pg : page) :
  title (normalize_page pg) <> EmptyString.
Proof. simpl. now apply or_else_nonempty. Qed.

(** The first line of a record's message is its title, in bold. *)
Lemma record_parts_head (rec : record) :
  head (record_parts rec) = Some ("<b>" +:+ escape (title rec) +:+ "</b>").
Proof.
  unfold record_parts.
  destruct (truthy (date rec)), (truthy (amount rec)), (truthy (rec_url rec));
    reflexivity.
Qed.

Lemma record_parts_amount (rec : record) :
  truthy (amount rec) = true ->
  In ("Amount: " +:+ escape (amount rec)) (record_parts rec).
Proof.
  intros Ha. unfold record_parts. rewrite Ha.
  destruct (truthy (date rec)), (truthy (rec_url rec)); simpl; auto.
Qed.

(** C9: a title property holding the parts "Coffee " and " Run" gives the
    title "Coffee  Run"; a number-typed amount property with no number
    gives the empty text, which the record and the message show as the
    dash placeholder; and for every page the title shown is not empty, an
    empty or absent title being shown as "(untitled)". *)
Theorem normalizer_title_and_amount :
  (forall (pg : page) (before after : list (string * prop_obj)) (k : string)
          (p : prop_obj),
      pg_properties pg = Some (before ++ (k, p) :: after) ->
      Forall (fun kp => has_type kp.2 "title" = false) before ->
      has_type p "title" = true ->
      p_title p = Some [ {| plain_text := Some "Coffee " |};
                         {| plain_text := Some " Run" |} ] ->
      text_of_title p = "Coffee  Run" /\
      title (normalize_page pg) = "Coffee  Run") /\
  (forall (pg : page),
      Forall (fun kp => has_type kp.2 "number" = true -> p_number kp.2 = None)
        (default [] (pg_properties pg)) ->
      (forall kp, In kp (default [] (pg_properties pg)) ->
                  has_type kp.2 "number" = true ->
                  text_of_number kp.2 = EmptyString /\
                  coerce_prop_value kp.2 = EmptyString) /\
      amount (normalize_page pg) = "—" /\
      In "Amount: —" (record_parts (normalize_page pg))) /\
  (forall (pg : page),
      title (normalize_page pg) <> EmptyString /\
      (first_of_type "title" coerce_prop_value
         (default [] (pg_properties pg)) = EmptyString ->
       title (normalize_page pg) = "(untitled)") /\
      exists shown,
        head (record_parts (normalize_page pg)) =
          Some ("<b>" +:+ shown +:+ "</b>") /\
        shown <> EmptyString).
Proof.
  split; [|split].
  - intros pg before after k p Hprops Hbefore Hp Hparts.
    assert (Ht : text_of_title p = "Coffee  Run").
    { unfold text_of_title. rewrite Hparts. reflexivity. }
    split; [exact Ht|].
    unfold normalize_page. rewrite Hprops. simpl title.
    rewrite (first_of_type_skip "title" coerce_prop_value before after k p
               Hbefore Hp).
    unfold coerce_prop_value. rewrite Hp, Ht. reflexivity.
  - intros pg Hnum.
    assert (Htext : forall q, p_number q = None ->
                     text_of_number q = EmptyString).
    { intros q Hq. unfold text_of_number. now rewrite Hq. }
    assert (Hcoerce : forall q, has_type q "number" = true ->
                       p_number q = None -> coerce_prop_value q = EmptyString).
    { intros q Hty Hq. unfold coerce_prop_value, has_type in *.
      destruct (p_type q) as [t|]; [|discriminate].
      apply String.eqb_eq in Hty. subst t. simpl.
      unfold text_of_number. now rewrite Hq. }
    assert (Hall : forall kp, In kp (default [] (pg_properties pg)) ->
                     has_type kp.2 "number" = true -> p_number kp.2 = None).
    { intros kp Hin. exact (proj1 (List.Forall_forall _ _) Hnum kp Hin). }
    assert (Hamount : amount (normalize_page pg) = "—").
    { unfold normalize_page. simpl amount.
      assert (Hfirst : first_of_type "number" coerce_prop_value
                         (default [] (pg_properties pg)) = EmptyString).
      { apply first_of_type_none. apply List.Forall_forall.
        intros kp Hin Hty. apply Hcoerce; auto. }
      destruct (lookup_prop prop_amount (default [] (pg_properties pg)))
        as [q|] eqn:Hq.
      - destruct (has_type q "number") eqn:Hty.
        + apply lookup_prop_In in Hq.
          rewrite (Htext q (Hall _ Hq Hty)). reflexivity.
        + rewrite Hfirst. reflexivity.
      - rewrite Hfirst. reflexivity. }
    split; [|split].
    + intros kp Hin Hty. split; [apply Htext | apply Hcoerce]; auto.
    + exact Hamount.
    + pose proof (record_parts_amount (normalize_page pg)) as Hshow.
      rewrite Hamount in Hshow. apply Hshow. reflexivity.
  - intros pg. split; [apply normalize_title_nonempty|]. split.
    + intros Hempty. unfold normalize_page. simpl title.
      rewrite Hempty. reflexivity.
    + exists (escape (title (normalize_page pg))). split.
      * apply record_parts_head.
      * apply escape_nonempty, normalize_title_nonempty.
Qed.

(** A page whose title property holds the two parts, and whose amount is a
    number-typed property with no number. *)
Lemma normalizer_title_and_amount_witness :
  title (normalize_page Samples.coffee_run) = "Coffee  Run" /\
  amount (normalize_page Samples.coffee_run) = "—" /\
  title (normalize_page Samples.coffee_run) <> EmptyString.
Proof.
  destruct normalizer_title_and_amount as (Htitle & Hamount & Hshown).
  split; [|split].
  - apply (Htitle Samples.coffee_run
             [("Date", Samples.date_prop (Some "2025-10-03"))]
             [("Amount", Samples.bare "number");
              ("Expense Type", Samples.relation_prop [])]
             "Expense Record" (Samples.title_prop ["Coffee "; " Run"]));
      try reflexivity.
    repeat constructor.
  - apply (Hamount Samples.coffee_run).
    simpl. repeat constructor; simpl; try discriminate; auto.
  - apply (Hshown Samples.coffee_run).
Defined.

(** ** The ticket key *)

Lemma b64_char_inj (i j : Z) :
  0 <= i < 64 -> 0 <= j < 64 -> b64_char i = b64_char j -> i = j.
Proof.
  intros Hi Hj Heq.
  set (range := map Z.of_nat (seq 0 64)).
  assert (Hall : forallb (fun a => forallb (fun b =>
             implb (Ascii.eqb (b64_char a) (b64_char b)) (Z.eqb a b))
             range) range = true) by (vm_compute; reflexivity).
  assert (Hin : forall k, 0 <= k < 64 -> In k range).
  { intros k Hk. unfold range. apply in_map_iff.
    exists (Z.to_nat k). split; [lia|]. apply in_seq. lia. }
  rewrite forallb_forall in Hall. specialize (Hall i (Hin i Hi)).
  rewrite forallb_forall in Hall. specialize (Hall j (Hin j Hj)).
  rewrite Heq, Ascii.eqb_refl in Hall. simpl in Hall.
  now apply Z.eqb_eq.
Qed.

Lemma byte_val_range (b : Byte.byte) : 0 <= byte_val b < 256.
Proof.
  unfold byte_val. pose proof (Byte.to_N_bounded b). lia.
Qed.

Lemma byte_of_val (b b' : Byte.byte) : byte_val b = byte_val b' -> b = b'.
Proof.
  unfold byte_val. intros H.
  assert (Hn : Byte.to_N b = Byte.to_N b') by lia.
  pose proof (Byte.of_to_N b) as H1. pose proof (Byte.of_to_N b') as H2.
  rewrite Hn in H1. congruence.
Qed.

(** Three bytes are determined by the four characters they encode to. *)
Lemma b64_group_inj (a0 a1 a2 b0 b1 b2 : Byte.byte) :
  let n := byte_val a0 * 65536 + byte_val a1 * 256 + byte_val a2 in
  let m := byte_val b0 * 65536 + byte_val b1 * 256 + byte_val b2 in
  b64_char (n / 262144) = b64_char (m / 262144) ->
  b64_char ((n / 4096) mod 64) = b64_char ((m / 4096) mod 64) ->
  b64_char ((n / 64) mod 64) = b64_char ((m / 64) mod 64) ->
  b64_char (n mod 64) = b64_char (m mod 64) ->
  a0 = b0 /\ a1 = b1 /\ a2 = b2.
Proof.
  intros n m H0 H1 H2 H3.
  pose proof (byte_val_range a0). pose proof (byte_val_range a1).
  pose proof (byte_val_range a2). pose proof (byte_val_range b0).
  pose proof (byte_val_range b1). pose proof (byte_val_range b2).
  assert (Hn : 0 <= n < 16777216) by (unfold n; lia).
  assert (Hm : 0 <= m < 16777216) by (unfold m; lia).
  apply b64_char_inj in H0;
    [| split; [apply Z.div_pos; lia | apply Z.div_lt_upper_bound; lia] ..].
  apply b64_char_inj in H1; [| apply Z.mod_pos_bound; lia ..].
  apply b64_char_inj in H2; [| apply Z.mod_pos_bound; lia ..].
  apply b64_char_inj in H3; [| apply Z.mod_pos_bound; lia ..].
  assert (Hnm : n = m).
  { clearbody n m. clear -H0 H1 H2 H3 Hn Hm.
    Z.to_euclidean_division_equations. lia. }
  unfold n, m in Hnm.
  assert (byte_val a0 = byte_val b0 /\ byte_val a1 = byte_val b1 /\
          byte_val a2 = byte_val b2) as (E0 & E1 & E2) by lia.
  auto using byte_of_val.
Qed.

(** The encoding of six bytes is injective. *)
Lemma token6_inj (bs bs' : list Byte.byte) :
  List.length bs = 6%nat -> List.length bs' = 6%nat ->
  urlsafe_b64encode_nopad bs = urlsafe_b64encode_nopad bs' -> bs = bs'.
Proof.
  intros Hl Hl' Heq.
  destruct bs as [|a0 [|a1 [|a2 [|a3 [|a4 [|a5 [|]]]]]]]; try discriminate.
  destruct bs' as [|b0 [|b1 [|b2 [|b3 [|b4 [|b5 [|]]]]]]]; try discriminate.
  cbn [urlsafe_b64encode_nopad] in Heq.
  injection Heq as H0 H1 H2 H3 H4 H5 H6 H7.
  destruct (b64_group_inj a0 a1 a2 b0 b1 b2 H0 H1 H2 H3) as (-> & -> & ->).
  destruct (b64_group_inj a3 a4 a5 b3 b4 b5 H4 H5 H6 H7) as (-> & -> & ->).
  reflexivity.
Qed.

Lemma token_bytes_length (e : env) (n nbytes : nat) :
  List.length (token_bytes e n nbytes) = nbytes.
Proof. unfold token_bytes. now rewrite length_map, length_seq. Qed.

Lemma store_cb_run (txn exp : string) (e : env) (n : nat) (s : state) :
  _store_cb txn exp e n s =
    {| outcome := Returned (urlsafe_b64encode_nopad (token_bytes e n 6));
       final :=
         {| user_messages := user_messages s;
            callback_map :=
              <[urlsafe_b64encode_nopad (token_bytes e n 6) := (txn, exp)]>
                (callback_map s) |};
       calls :=
         [TokenUrlsafe 6 (urlsafe_b64encode_nopad (token_bytes e n 6))] |}.
Proof. reflexivity. Qed.

Lemma tap_disabled_run (c : CallbackQuery) (e : env) (n : nat) (s : state) :
  data c = Some "SET:disabled" ->
  handle_set_type c e n s =
    {| outcome := telegram_unit e n;
       final := s;
       calls := [AnswerCallbackQuery (cq_id c) "No categories configured."
                   true (telegram_unit e n)] |}.
Proof.
  intros Hd. unfold handle_set_type. rewrite Hd. reflexivity.
Qed.

(** C4, as the code has it: minting returns the URL-safe text of six
    random bytes and stores the pair under it, with no check against the
    reserved key, so the key is "disabled" for exactly one draw of the six
    bytes and differs from it for every other; a tap carrying the key
    "disabled" is answered with "No categories configured." as an alert,
    which is not the "Invalid/expired button." answer, leaves both
    dictionaries as they were and makes no other call. *)
Theorem mint_and_reserved_key :
  (forall (txn exp : string) (e : env) (n : nat) (s : state),
      let key := urlsafe_b64encode_nopad (token_bytes e n 6) in
      _store_cb txn exp e n s =
        {| outcome := Returned key;
           final :=
             {| user_messages := user_messages s;
                callback_map := <[key := (txn, exp)]> (callback_map s) |};
           calls := [TokenUrlsafe 6 key] |} /\
      (key = "disabled" <-> token_bytes e n 6 = Samples.disabled_bytes)) /\
  (forall (c : CallbackQuery) (e : env) (n : nat) (s : state),
      data c = Some "SET:disabled" ->
      handle_set_type c e n s =
        {| outcome := telegram_unit e n;
           final := s;
           calls := [AnswerCallbackQuery (cq_id c)
                       "No categories configured." true
                       (telegram_unit e n)] |} /\
      "No categories configured." <> "Invalid/expired button.").
Proof.
  split.
  - intros txn exp e n s key. split; [apply store_cb_run|].
    split.
    + intros Hkey. apply token6_inj.
      * apply token_bytes_length.
      * reflexivity.
      * exact Hkey.
    + unfold key. intros ->. reflexivity.
  - intros c e n s Hd. split; [now apply tap_disabled_run | discriminate].
Qed.

(** A tap carrying the reserved key, in the start-up state. *)
Lemma mint_and_reserved_key_witness :
  calls (handle_set_type
           {| cq_id := "q1"; data := Some "SET:disabled";
              message := {| chat_id := 7; message_id := 101;
                            text := Some "x" |} |}
           Samples.unlucky 0%nat initial) =
    [AnswerCallbackQuery "q1" "No categories configured." true
       (Returned tt)].
Proof.
  destruct mint_and_reserved_key as [_ Htap].
  destruct (Htap {| cq_id := "q1"; data := Some "SET:disabled";
                    message := {| chat_id := 7; message_id := 101;
                                  text := Some "x" |} |}
              Samples.unlucky 0%nat initial) as [Hrun _].
  - reflexivity.
  - rewrite Hrun. reflexivity.
Defined.

(** C4 as stated fails: the random source can draw the six bytes that
    encode to the reserved key, and minting then returns "disabled" and
    stores the pair under it. *)
Lemma mint_returns_reserved_key :
  outcome (_store_cb "page-1" "food-id" Samples.unlucky 0%nat initial)
    = Returned "disabled" /\
  callback_map (final (_store_cb "page-1" "food-id" Samples.unlucky 0%nat
                         initial)) !! "disabled"
    = Some ("page-1", "food-id").
Proof. split; vm_compute; reflexivity. Qed.

(** ** The tap handler *)

Lemma startswith_SET (d : string) :
  startswith d "SET:" = true -> exists key, d = "SET:" +:+ key.
Proof.
  unfold startswith. intros H.
  do 4 (destruct d as [|? d]; [discriminate|]; simpl in H;
        match type of H with
        | (if ?b then _ else _) = true =>
            destruct b as [<-|]; [|discriminate]
        end).
  exists d. reflexivity.
Qed.

(** Unfold the monad and the outgoing calls, then compute. *)
Ltac run :=
  cbv [bind attempt try_except perform ret raise get put ask telegram_unit
       set_expense_type answer_callback_query send_message edit_message_text
       edit_message_reply_markup delete_message post_query query_rows
       outcome final calls Datatypes.length Nat.add];
  simpl.

(** Split on how the environment ends the calls that the goal looks at. *)
Ltac env_cases :=
  run;
  repeat (match goal with
          | |- context [telegram_fails ?e ?n] =>
              destruct (telegram_fails e n) eqn:?
          | |- context [notion_patch_fails ?e ?n ?a ?b] =>
              destruct (notion_patch_fails e n a b) eqn:?
          end; simplify_eq; run).

Arguments update_notion : simpl never.

Lemma SET_cons (key : string) :
  "SET:" +:+ key = String "S" (String "E" (String "T" (String ":" key))).
Proof. reflexivity. Qed.

Lemma prefix_nil (s : string) : String.prefix EmptyString s = true.
Proof. now destruct s. Qed.

Lemma tap_unknown_run (c : CallbackQuery) (key : string) (e : env) (n : nat)
    (s : state) :
  data c = Some ("SET:" +:+ key) ->
  key <> "disabled" ->
  callback_map s !! key = None ->
  handle_set_type c e n s =
    {| outcome := telegram_unit e n;
       final := s;
       calls := [AnswerCallbackQuery (cq_id c) "Invalid/expired button."
                   false (telegram_unit e n)] |}.
Proof.
  intros Hd Hkey Hmap. unfold handle_set_type. rewrite Hd, SET_cons.
  apply String.eqb_neq in Hkey.
  cbn. rewrite prefix_nil. cbn. rewrite Hkey. cbn. rewrite Hmap.
  reflexivity.
Qed.

Lemma tap_known_run (c : CallbackQuery) (key : string) (ids : string * string)
    (e : env) (n : nat) (s : state) :
  data c = Some ("SET:" +:+ key) ->
  key <> "disabled" ->
  callback_map s !! key = Some ids ->
  handle_set_type c e n s =
    update_notion c ids.1 ids.2 e n (without_ticket key s).
Proof.
  intros Hd Hkey Hmap. unfold handle_set_type. rewrite Hd, SET_cons.
  apply String.eqb_neq in Hkey.
  cbn. rewrite prefix_nil. cbn. rewrite Hkey. cbn. rewrite Hmap.
  destruct ids as [t x]. cbn. unfold without_ticket.
  destruct (update_notion c t x e n _) as [o f cs]. reflexivity.
Qed.

(** Split on every choice the block [update_notion] meets: how the
    environment ends each call, whether the tapped message has text, and
    whether the chat has a log. *)
Ltac update_notion_cases c s :=
  unfold update_notion, log_append;
  destruct (text (message c));
  env_cases;
  try (destruct (user_messages s !! chat_id (message c)) eqn:?; run).

Lemma update_notion_keeps_tickets (c : CallbackQuery) (t x : string)
    (e : env) (n : nat) (s : state) :
  callback_map (final (update_notion c t x e n s)) = callback_map s.
Proof. update_notion_cases c s; reflexivity. Qed.

Lemma update_notion_patches_once (c : CallbackQuery) (t x : string)
    (e : env) (n : nat) (s : state) :
  exists r rest,
    calls (update_notion c t x e n s) =
      PatchPage t prop_expense_type [ {| rel_id := x |} ] r :: rest /\
    forall p q ids r', ~ In (PatchPage p q ids r') rest.
Proof.
  update_notion_cases c s;
    (eexists _, _; split; [reflexivity|];
     intros p' q' ids' r' Hin; simpl in Hin; intuition discriminate).
Qed.

Lemma update_notion_answers (c : CallbackQuery) (t x : string)
    (e : env) (n : nat) (s : state) :
  exists note alert r,
    In (AnswerCallbackQuery (cq_id c) note alert r)
      (calls (update_notion c t x e n s)).
Proof.
  update_notion_cases c s; eexists _, _, _; simpl; eauto.
Qed.

Lemma update_notion_no_KeyError (c : CallbackQuery) (t x : string)
    (e : env) (n : nat) (s : state) :
  is_Some (user_messages s !! chat_id (message c)) ->
  forall k, outcome (update_notion c t x e n s) <> Raised (KeyError k).
Proof.
  intros [sent Hsent] k. unfold update_notion, log_append.
  destruct (text (message c)); env_cases; rewrite ?Hsent; run;
    discriminate.
Qed.

Lemma tap_ignored_run (c : CallbackQuery) (e : env) (n : nat) (s : state) :
  match data c with
  | Some d => truthy d && startswith d "SET:" = false
  | None => True
  end ->
  handle_set_type c e n s =
    {| outcome := telegram_unit e n;
       final := s;
       calls := [AnswerCallbackQuery (cq_id c) "Ignoring." false
                   (telegram_unit e n)] |}.
Proof.
  unfold handle_set_type. destruct (data c) as [d|]; [|reflexivity].
  intros ->. reflexivity.
Qed.

(** How a tap is routed: ignored, the reserved key, an unknown ticket, or
    a ticket that is popped and handed to [update_notion]. *)
Lemma tap_cases (c : CallbackQuery) (e : env) (n : nat) (s : state) :
  (exists note alert,
      handle_set_type c e n s =
        {| outcome := telegram_unit e n;
           final := s;
           calls := [AnswerCallbackQuery (cq_id c) note alert
                       (telegram_unit e n)] |}) \/
  (exists key ids,
      data c = Some ("SET:" +:+ key) /\ key <> "disabled" /\
      callback_map s !! key = Some ids /\
      handle_set_type c e n s =
        update_notion c ids.1 ids.2 e n (without_ticket key s)).
Proof.
  destruct (data c) as [d|] eqn:Hd.
  - destruct (truthy d && startswith d "SET:") eqn:Hset.
    + apply andb_prop in Hset as [_ Hset].
      apply startswith_SET in Hset as [key ->].
      destruct (String.eqb_spec key "disabled") as [->|Hkey].
      * left. eexists _, _. now apply tap_disabled_run.
      * destruct (callback_map s !! key) as [ids|] eqn:Hmap.
        -- right. exists key, ids.
           split; [reflexivity|]. split; [exact Hkey|].
           split; [exact Hmap|]. now apply (tap_known_run c key).
        -- left. eexists _, _. now apply (tap_unknown_run c key).
    + left. eexists _, _. apply tap_ignored_run. now rewrite Hd.
  - left. eexists _, _. apply tap_ignored_run. now rewrite Hd.
Qed.

Lemma update_notion_first_calls (c : CallbackQuery) (t x : string)
    (e : env) (n : nat) (s : state) :
  exists rest,
    calls (update_notion c t x e n s) =
      match notion_patch_fails e n t x with
      | None =>
          PatchPage t prop_expense_type [ {| rel_id := x |} ] (Returned tt)
            :: AnswerCallbackQuery (cq_id c) "Updated ✅" false
                 (telegram_unit e (S n))
            :: rest
      | Some msg =>
          PatchPage t prop_expense_type [ {| rel_id := x |} ]
            (Raised (HTTPError msg))
            :: AnswerCallbackQuery (cq_id c) "Update failed ❌" false
                 (telegram_unit e (S n))
            :: rest
      end.
Proof.
  update_notion_cases c s; eexists; unfold telegram_unit;
    repeat match goal with
           | H : telegram_fails _ _ = _ |- _ => rewrite H
           end; reflexivity.
Qed.

(** C5: on every path through the tap handler the tap is answered:
    whatever the data, the state and the environment, the calls of the
    handler include [answer_callback_query] for the tap; data that does
    not match is answered "Ignoring.", the reserved key "No categories
    configured.", an unknown ticket "Invalid/expired button.", a
    successful update "Updated" and a failed one "Update failed". *)
Theorem every_tap_is_answered (c : CallbackQuery) (e : env) (n : nat)
    (s : state) :
  (exists note alert r,
      In (AnswerCallbackQuery (cq_id c) note alert r)
        (calls (handle_set_type c e n s))) /\
  (match data c with
   | Some d => truthy d && startswith d "SET:" = false
   | None => True
   end ->
   calls (handle_set_type c e n s) =
     [AnswerCallbackQuery (cq_id c) "Ignoring." false (telegram_unit e n)]) /\
  (data c = Some "SET:disabled" ->
   calls (handle_set_type c e n s) =
     [AnswerCallbackQuery (cq_id c) "No categories configured." true
        (telegram_unit e n)]) /\
  (forall key,
      data c = Some ("SET:" +:+ key) -> key <> "disabled" ->
      callback_map s !! key = None ->
      calls (handle_set_type c e n s) =
        [AnswerCallbackQuery (cq_id c) "Invalid/expired button." false
           (telegram_unit e n)]) /\
  (forall key t x,
      data c = Some ("SET:" +:+ key) -> key <> "disabled" ->
      callback_map s !! key = Some (t, x) ->
      exists rest,
        calls (handle_set_type c e n s) =
          match notion_patch_fails e n t x with
          | None =>
              PatchPage t prop_expense_type [ {| rel_id := x |} ]
                (Returned tt)
                :: AnswerCallbackQuery (cq_id c) "Updated ✅" false
                     (telegram_unit e (S n))
                :: rest
          | Some msg =>
              PatchPage t prop_expense_type [ {| rel_id := x |} ]
                (Raised (HTTPError msg))
                :: AnswerCallbackQuery (cq_id c) "Update failed ❌" false
                     (telegram_unit e (S n))
                :: rest
          end).
Proof.
  split; [|split; [|split; [|split]]].
  - destruct (tap_cases c e n s) as [(note & alert & ->)|
                                     (key & ids & _ & _ & _ & ->)].
    + exists note, alert, (telegram_unit e n). now left.
    + apply update_notion_answers.
  - intros H. now rewrite tap_ignored_run.
  - intros H. now rewrite tap_disabled_run.
  - intros key Hd Hkey Hmap. now rewrite (tap_unknown_run c key).
  - intros key t x Hd Hkey Hmap.
    rewrite (tap_known_run c key (t, x)) by assumption.
    apply update_notion_first_calls.
Qed.

(** A tap on the only button of the sample chat. *)
Lemma every_tap_is_answered_witness :
  exists rest,
    calls (handle_set_type Samples.tap_food Samples.unlucky 0%nat
             Samples.awaiting_choice) =
      PatchPage "page-1" "Expense Type" [ {| rel_id := "food-id" |} ]
        (Returned tt)
        :: AnswerCallbackQuery "q1" "Updated ✅" false (Returned tt)
        :: rest.
Proof.
  destruct (every_tap_is_answered Samples.tap_food Samples.unlucky 0%nat
              Samples.awaiting_choice) as (_ & _ & _ & _ & Hknown).
  destruct (Hknown "FRYXGBka" "page-1" "food-id") as [rest Hrest].
  - reflexivity.
  - discriminate.
  - reflexivity.
  - exists rest. exact Hrest.
Defined.

(** C3 fails on the code: the update of Notion succeeds, the edit of the
    message text is refused and so is the confirmation sent in its place;
    that last failure leaves the inner [try], reaches the [except] meant
    for a failed update, and the handler answers "Update failed" and posts
    a failure message for an update that went through. *)
Theorem refused_confirmation_reported_as_failed_update :
  calls (handle_set_type Samples.tap_food Samples.feedback_refused 0%nat
           Samples.awaiting_choice) =
    [ PatchPage "page-1" "Expense Type" [ {| rel_id := "food-id" |} ]
        (Returned tt);
      AnswerCallbackQuery "q1" "Updated ✅" false (Returned tt);
      EditMessageReplyMarkup 7 104 (Returned tt);
      EditMessageText
        ("<b>Coffee  Run</b>" +:+ newline +:+ newline +:+ "✅ Categorised.")
        7 104 (Raised (ApiException "message is not modified"));
      SendMessage 7 "✅ Categorised." None
        (Raised (ApiException "Too Many Requests"));
      AnswerCallbackQuery "q1" "Update failed ❌" false (Returned tt);
      SendMessage 7 "❌ Failed: <code>Too Many Requests</code>" None
        (Returned 106) ] /\
  user_messages
    (final (handle_set_type Samples.tap_food Samples.feedback_refused 0%nat
              Samples.awaiting_choice)) !! 7 = Some [100; 104; 106].
Proof. split; vm_compute; reflexivity. Qed.

(** ** The fetch *)

(** The inner loop always returns from inside: at the latest on the last
    row of the response, where [seen] has reached the length of the
    response. *)
Lemma read_page_returns (limit len_results : Z) (rows : list page)
    (p : progress) :
  rows <> [] ->
  len_results <= seen p + Z.of_nat (List.length rows) ->
  let k := Z.to_nat (Z.max 1 (Z.min limit len_results - seen p)) in
  read_page limit len_results rows p =
    inr (empty_page_records p ++ map normalize_page (take k rows),
         index_records (map normalize_page (take k rows))
           (index_of_empty_records p)).
Proof.
  revert p. induction rows as [|page rest IH]; intros p Hne Hlen k;
    [congruence|].
  cbn [read_page seen empty_page_records index_of_empty_records].
  destruct (Z.leb_spec limit (seen p + 1)) as [Hlimit|Hlimit].
  { assert (k = 1%nat) as -> by (unfold k; lia). reflexivity. }
  destruct (Z.leb_spec len_results (seen p + 1)) as [Hall|Hall].
  { assert (k = 1%nat) as -> by (unfold k; lia). reflexivity. }
  cbn [List.length] in Hlen.
  rewrite IH; cbn [seen empty_page_records index_of_empty_records].
  - assert (k = S (Z.to_nat (Z.max 1 (Z.min limit len_results
                                        - (seen p + 1))))) as ->
      by (unfold k; lia).
    cbn [take map index_records fold_left].
    rewrite <- app_assoc. reflexivity.
  - destruct rest; [cbn [List.length] in Hlen; lia | congruence].
  - lia.
Qed.

(** [read_rows] makes one request and returns from its first response,
    whatever the limit and whatever the response says about further
    pages. *)
Lemma read_rows_run (limit : Z) (e : env) (n : nat) (s : state) :
  read_rows limit e n s =
    match notion_query e n (first_query limit) with
    | QueryOk d =>
        {| outcome :=
             Returned
               (Some (map normalize_page (take (kept limit (results d))
                                            (results d)),
                      index_records
                        (map normalize_page (take (kept limit (results d))
                                               (results d))) ∅));
           final := s;
           calls := [PostQuery (first_query limit) (Returned d)] |}
    | QueryHTTPError msg =>
        {| outcome := Raised (HTTPError msg);
           final := s;
           calls := [PostQuery (first_query limit)
                       (Raised (HTTPError msg))] |}
    | QueryJSONDecodeError msg =>
        {| outcome := Raised (JSONDecodeError msg);
           final := s;
           calls := [PostQuery (first_query limit)
                       (Raised (JSONDecodeError msg))] |}
    end.
Proof.
  unfold read_rows.
  change (Z.to_nat Notion.page_size) with (S 49).
  generalize 49%nat. intros iterations.
  cbn [read_pages seen empty_page_records index_of_empty_records].
  unfold bind, query_rows, post_query, perform, ret.
  cbn [outcome final calls sort_query]. fold sort_query.
  change {| b_page_size := Z.min Notion.page_size (limit - 0);
            b_start_cursor := None; b_filter := Some filter;
            b_sorts := Some sort_query |} with (first_query limit).
  destruct (notion_query e n (first_query limit)) as [d|msg|msg];
    [|reflexivity..].
  cbn [outcome final calls].
  destruct (results d) as [|row rows] eqn:Hres;
    [cbn; rewrite take_nil; reflexivity|].
  rewrite read_page_returns;
    [| congruence
     | cbn [seen]; lia ].
  cbn [outcome final calls seen empty_page_records index_of_empty_records
       app].
  unfold kept. rewrite Z.sub_0_r. reflexivity.
Qed.

(** C2 fails on the code: when the first response is used up, says that
    more pages follow and holds fewer rows than [limit], [read_rows]
    still returns what it has after that one request; no request carries
    the cursor on.  (The inner loop compares the running count [seen] with
    the length of the response and returns on its last row, before the
    test of [has_more] is reached.) *)
Theorem read_rows_never_follows_cursor (limit : Z) (e : env) (n : nat)
    (s : state) (d : query_data) :
  notion_query e n (first_query limit) = QueryOk d ->
  results d <> [] ->
  has_more d = Some true ->
  Z.of_nat (List.length (results d)) < limit ->
  calls (read_rows limit e n s) =
    [PostQuery (first_query limit) (Returned d)] /\
  outcome (read_rows limit e n s) =
    Returned (Some (map normalize_page (results d),
                    index_records (map normalize_page (results d)) ∅)).
Proof.
  intros Hq Hne Hmore Hlen. rewrite read_rows_run, Hq.
  cbn [calls outcome]. split; [reflexivity|].
  assert (Hkept : kept limit (results d) = List.length (results d)).
  { unfold kept. destruct (results d); [congruence|].
    cbn [List.length] in *. lia. }
  rewrite Hkept, firstn_all. reflexivity.
Qed.

(** Sixty uncategorised expenses, and a fetch with limit 60: the first
    page holds 50 of them and announces more. *)
Lemma read_rows_never_follows_cursor_witness :
  List.length (calls (read_rows 60 (Store.serving (Samples.ledger 60)
                                      Samples.unlucky) 0%nat initial))
    = 1%nat /\
  exists records index,
    outcome (read_rows 60 (Store.serving (Samples.ledger 60)
                             Samples.unlucky) 0%nat initial)
      = Returned (Some (records, index)) /\
    List.length records = 50%nat.
Proof.
  destruct (read_rows_never_follows_cursor 60
              (Store.serving (Samples.ledger 60) Samples.unlucky) 0%nat
              initial
              (Store.query (Samples.ledger 60) (first_query 60)))
    as [Hcalls Hout].
  - reflexivity.
  - vm_compute. discriminate.
  - vm_compute. reflexivity.
  - vm_compute. reflexivity.
  - split.
    + rewrite Hcalls. reflexivity.
    + eexists _, _. split; [exact Hout|].
      vm_compute. reflexivity.
Defined.

(** ** The store's sort *)

Section Sorting.
Variable before : page -> page -> bool.
Hypothesis before_total :
  forall a b, before a b = false -> before b a = true.
Hypothesis before_trans :
  forall a b c, before a b = true -> before b c = true ->
                before a c = true.

Let ordered := StronglySorted (fun a b => before a b = true).

Lemma insert_sorted_perm (x : page) (l : list page) :
  Permutation (Store.insert_sorted before x l) (x :: l).
Proof.
  induction l as [|y l IH]; cbn [Store.insert_sorted]; [reflexivity|].
  destruct (before x y); [reflexivity|].
  rewrite IH. apply perm_swap.
Qed.

Lemma sort_rows_perm (l : list page) :
  Permutation (Store.sort_rows before l) l.
Proof.
  induction l as [|x l IH]; cbn [Store.sort_rows]; [reflexivity|].
  rewrite insert_sorted_perm. now constructor.
Qed.

Lemma insert_sorted_ordered (x : page) (l : list page) :
  ordered l -> ordered (Store.insert_sorted before x l).
Proof.
  unfold ordered.
  induction 1 as [|y l Hl IH Hy]; cbn [Store.insert_sorted].
  - repeat constructor.
  - destruct (before x y) eqn:Hxy.
    + constructor; [now constructor|].
      constructor; [exact Hxy|].
      rewrite List.Forall_forall in Hy |- *.
      intros z Hz. eapply before_trans; eauto.
    + constructor; [exact IH|].
      rewrite List.Forall_forall in Hy |- *.
      intros z Hz.
      apply (Permutation_in _ (insert_sorted_perm x l)) in Hz.
      destruct Hz as [<-|Hz]; auto.
Qed.

Lemma sort_rows_ordered (l : list page) :
  ordered (Store.sort_rows before l).
Proof.
  induction l as [|x l IH]; cbn [Store.sort_rows].
  - constructor.
  - now apply insert_sorted_ordered.
Qed.

(** In a sorted list every row of a prefix comes before every row of the
    rest. *)
Lemma ordered_split (l : list page) (k : nat) :
  ordered l ->
  ordered (take k l) /\
  forall a b, In a (take k l) -> In b (drop k l) -> before a b = true.
Proof.
  unfold ordered. intros Hl. revert k.
  induction Hl as [|x l Hl IH Hx]; intros [|k]; cbn [take drop].
  - split; [constructor | intros ? ? []].
  - split; [constructor | intros ? ? []].
  - split; [constructor | intros ? ? []].
  - destruct (IH k) as [IH1 IH2]. split.
    + constructor; [exact IH1|].
      rewrite List.Forall_forall in Hx |- *.
      intros z Hz. apply Hx.
      rewrite <- (take_drop k l). apply in_or_app. now left.
    + intros a b [<-|Ha] Hb.
      * rewrite List.Forall_forall in Hx. apply Hx.
        rewrite <- (take_drop k l). apply in_or_app. now right.
      * now apply IH2.
Qed.

End Sorting.

Lemma leb_trans (a b c : string) :
  String.leb a b = true -> String.leb b c = true -> String.leb a c = true.
Proof.
  intros Hab Hbc. apply Is_true_true.
  apply Is_true_true in Hab. apply Is_true_true in Hbc.
  exact (transitivity (R := String.le) Hab Hbc).
Qed.

(** Under the fetch's sort rule a row may precede another exactly when its
    date is not the earlier one. *)
Lemma precedes_date_descending (a b : page) :
  Store.precedes sort_query a b =
    String.leb (Store.sort_key "Date" b) (Store.sort_key "Date" a).
Proof.
  unfold sort_query, String.leb.
  cbn [Store.precedes sort_property sort_direction].
  rewrite (String.compare_antisym (Store.sort_key "Date" a)
             (Store.sort_key "Date" b)).
  destruct (String.compare (Store.sort_key "Date" b)
              (Store.sort_key "Date" a)); reflexivity.
Qed.

(** C6: the first page of the source holds the five rows that match the
    fetch filter (date present, category empty), sorted by the fetch's
    rule, date descending; the request named a page size of 3, the page
    of the source is larger.  A fetch with limit 3 makes that one request
    and returns exactly three records: those of the first three rows of
    the page, in date order from the latest on, the last two rows of the
    page being left out, and neither of them has a later date than any of
    the three. *)
Theorem fetch_three_most_recent_of_five (rows : list page) (e : env)
    (n : nat) (s : state) (d : query_data) :
  let matching := List.filter (Store.passes (Some filter)) rows in
  let day := Store.sort_key "Date" in
  List.length matching = 5%nat ->
  notion_query e n (first_query 3) = QueryOk d ->
  results d = Store.sort_rows (Store.precedes sort_query) matching ->
  exists top rest,
    results d = top ++ rest /\
    calls (read_rows 3 e n s) = [PostQuery (first_query 3) (Returned d)] /\
    outcome (read_rows 3 e n s) =
      Returned (Some (map normalize_page top,
                      index_records (map normalize_page top) ∅)) /\
    List.length (map normalize_page top) = 3%nat /\
    List.length rest = 2%nat /\
    Permutation (top ++ rest) matching /\
    StronglySorted (fun a b => String.leb (day b) (day a) = true) top /\
    (forall a b, In a top -> In b rest ->
                 String.leb (day b) (day a) = true).
Proof.
  intros matching day Hfive Hquery Hpage.
  set (sorted := Store.sort_rows (Store.precedes sort_query) matching) in *.
  assert (Hperm : Permutation sorted matching) by apply sort_rows_perm.
  assert (Hlen : List.length sorted = 5%nat)
    by (rewrite (Permutation_length Hperm); exact Hfive).
  assert (Hsplit :
            StronglySorted
              (fun a b => Store.precedes sort_query a b = true)
              (take 3 sorted) /\
            forall a b, In a (take 3 sorted) -> In b (drop 3 sorted) ->
                        Store.precedes sort_query a b = true).
  { apply ordered_split. apply sort_rows_ordered.
    - intros a b. rewrite !precedes_date_descending. intros Hab.
      destruct (String.leb_total (Store.sort_key "Date" a)
                  (Store.sort_key "Date" b)); congruence.
    - intros a b c. rewrite !precedes_date_descending.
      intros Hab Hbc. eapply leb_trans; eauto. }
  destruct Hsplit as [Htop Hcut].
  exists (take 3 sorted), (drop 3 sorted).
  assert (Htake : List.length (take 3 sorted) = 3%nat)
    by (rewrite length_take; lia).
  assert (Hkept : kept 3 (results d) = 3%nat)
    by (unfold kept; rewrite Hpage, Hlen; reflexivity).
  rewrite read_rows_run, Hquery. cbn [calls outcome].
  rewrite Hkept, Hpage.
  split; [|split; [|split; [|split; [|split; [|split; [|split]]]]]].
  - symmetry. apply take_drop.
  - reflexivity.
  - reflexivity.
  - rewrite length_map. exact Htake.
  - rewrite length_drop. lia.
  - rewrite take_drop. exact Hperm.
  - clear -Htop. induction Htop as [|a l _ IH Ha]; constructor.
    + exact IH.
    + rewrite List.Forall_forall in Ha |- *. intros b Hb.
      specialize (Ha b Hb). now rewrite precedes_date_descending in Ha.
  - intros a b Ha Hb. specialize (Hcut a b Ha Hb).
    now rewrite precedes_date_descending in Hcut.
Qed.

(** Five matching rows among seven, all five in the first page; the fetch
    returns the expenses 4, 3 and 2, the three latest, and leaves the
    expenses 1 and 0 of the page out. *)
Lemma fetch_three_most_recent_of_five_witness :
  let e := Samples.in_one_page Samples.mixed_rows in
  let d :=
    {| results := map Samples.expense [4; 3; 2; 1; 0]%nat;
       has_more := Some false;
       next_cursor := None |} in
  (List.length (List.filter (Store.passes (Some filter)) Samples.mixed_rows)
     = 5%nat /\
   notion_query e 0%nat (first_query 3) = QueryOk d /\
   results d =
     Store.sort_rows (Store.precedes sort_query)
       (List.filter (Store.passes (Some filter)) Samples.mixed_rows)) /\
  outcome (read_rows 3 e 0%nat initial) =
    Returned
      (Some (map normalize_page (map Samples.expense [4; 3; 2]%nat),
             index_records
               (map normalize_page (map Samples.expense [4; 3; 2]%nat))
               ∅)).
Proof.
  intros e d.
  assert (Hfive : List.length (List.filter (Store.passes (Some filter))
                                 Samples.mixed_rows) = 5%nat)
    by reflexivity.
  assert (Hquery : notion_query e 0%nat (first_query 3) = QueryOk d)
    by reflexivity.
  assert (Hpage : results d =
                    Store.sort_rows (Store.precedes sort_query)
                      (List.filter (Store.passes (Some filter))
                         Samples.mixed_rows))
    by reflexivity.
  split; [split; [exact Hfive | split; [exact Hquery | exact Hpage]]|].
  destruct (fetch_three_most_recent_of_five Samples.mixed_rows e 0%nat
              initial d Hfive Hquery Hpage)
    as (top & rest & Hsplit & _ & Hout & Hlen & _).
  rewrite Hout.
  assert (Htop : top = map Samples.expense [4; 3; 2]%nat).
  { rewrite length_map in Hlen.
    apply (f_equal (take 3)) in Hsplit.
    rewrite take_app_length' in Hsplit by (symmetry; exact Hlen).
    rewrite <- Hsplit. reflexivity. }
  rewrite Htop. reflexivity.
Defined.

Example fetch_three_of_mixed_rows :
  option_map fst
    (match outcome (read_rows 3 (Store.serving Samples.mixed_rows
                                   Samples.unlucky) 0%nat initial) with
     | Returned got => got
     | Raised _ => None
     end) =
    Some (map normalize_page
            [Samples.expense 4; Samples.expense 3; Samples.expense 2]).
Proof. vm_compute. reflexivity. Qed.

(** ** The review batch *)

Lemma bind_returned {A B : Type} (m : M A) (f : A -> M B) (e : env)
    (n : nat) (s : state) (a : A) :
  outcome (m e n s) = Returned a ->
  bind m f e n s =
    {| outcome :=
         outcome (f a e (List.length (calls (m e n s)) + n)%nat
                    (final (m e n s)));
       final :=
         final (f a e (List.length (calls (m e n s)) + n)%nat
                  (final (m e n s)));
       calls :=
         calls (m e n s)
           ++ calls (f a e (List.length (calls (m e n s)) + n)%nat
                       (final (m e n s))) |}.
Proof. intros H. unfold bind. rewrite H. reflexivity. Qed.

Lemma bind_raised {A B : Type} (m : M A) (f : A -> M B) (e : env)
    (n : nat) (s : state) (x : exn) :
  outcome (m e n s) = Raised x ->
  bind m f e n s =
    {| outcome := Raised x; final := final (m e n s);
       calls := calls (m e n s) |}.
Proof. intros H. unfold bind. rewrite H. reflexivity. Qed.

Lemma deletions_cons (e : env) (n : nat) (chat message : Z)
    (rest : list Z) :
  deletions e n chat (message :: rest) =
    DeleteMessage chat message (telegram_unit e n)
      :: deletions e (S n) chat rest.
Proof.
  unfold deletions. cbn [imap]. f_equal.
  apply imap_ext. intros i x _. cbn. now rewrite Nat.add_succ_r.
Qed.

Lemma deletions_length (e : env) (n : nat) (chat : Z) (ids : list Z) :
  List.length (deletions e n chat ids) = List.length ids.
Proof. unfold deletions. apply length_imap. Qed.

(** Every id is tried, whatever happens to the ones before it, and the
    loop itself never raises. *)
Lemma delete_each_run (chat : Z) (ids : list Z) (e : env) (n : nat)
    (s : state) :
  delete_each chat ids e n s =
    {| outcome := Returned tt; final := s;
       calls := deletions e n chat ids |}.
Proof.
  revert n. induction ids as [|message rest IH]; intros n; [reflexivity|].
  rewrite deletions_cons. cbn [delete_each].
  run. destruct (telegram_fails e n); run; rewrite IH; reflexivity.
Qed.

(** The state once the log of [chat] has been reset. *)
Lemma clean_previous_batch_run (chat : Z) (e : env) (n : nat) (s : state) :
  clean_previous_batch chat e n s =
    {| outcome := Returned tt;
       final := {| user_messages := <[chat := []]> (user_messages s);
                   callback_map := callback_map s |};
       calls :=
         deletions e n chat (default [] (user_messages s !! chat)) |}.
Proof.
  unfold clean_previous_batch, log_reset. run.
  rewrite delete_each_run. run. now rewrite app_nil_r.
Qed.

Lemma tickets_from_refl (s : state) : tickets_from s [] s.
Proof. intros key ids H. now left. Qed.

Lemma tickets_from_same (s s' : state) (cs : list event) :
  callback_map s' = callback_map s -> tickets_from s cs s'.
Proof. intros Heq key ids H. left. now rewrite <- Heq. Qed.

Lemma tickets_from_app (s s1 s2 : state) (cs1 cs2 : list event) :
  tickets_from s cs1 s1 -> tickets_from s1 cs2 s2 ->
  tickets_from s (cs1 ++ cs2) s2.
Proof.
  intros H1 H2 key ids Hk.
  destruct (H2 key ids Hk) as [Hk1|[nb Hin]].
  - destruct (H1 key ids Hk1) as [Hk0|[nb Hin]]; [now left|].
    right. exists nb. apply in_or_app. now left.
  - right. exists nb. apply in_or_app. now right.
Qed.

Lemma only_tokens_nil : only_tokens [].
Proof. intros ev []. Qed.

Lemma only_tokens_app (cs1 cs2 : list event) :
  only_tokens cs1 -> only_tokens cs2 -> only_tokens (cs1 ++ cs2).
Proof.
  intros H1 H2 ev Hin. apply in_app_or in Hin as [Hin|Hin]; auto.
Qed.

Lemma sent_ids_app (chat : Z) (cs1 cs2 : list event) :
  sent_ids chat (cs1 ++ cs2) = sent_ids chat cs1 ++ sent_ids chat cs2.
Proof.
  induction cs1 as [|ev cs1 IH]; [reflexivity|].
  destruct ev as [| ch body kb [sent|x] | | | | | |]; cbn [app sent_ids];
    try exact IH.
  destruct (Z.eqb ch chat); cbn [app]; now rewrite IH.
Qed.

Lemma sent_ids_only_tokens (chat : Z) (cs : list event) :
  only_tokens cs -> sent_ids chat cs = [].
Proof.
  induction cs as [|ev cs IH]; intros Hcs; [reflexivity|].
  destruct (Hcs ev (or_introl eq_refl)) as (nb & key & ->).
  cbn [sent_ids]. apply IH. intros ev Hin. apply Hcs. now right.
Qed.

Lemma sent_ids_deletions (chat : Z) (e : env) (n : nat) (ch : Z)
    (ids : list Z) :
  sent_ids chat (deletions e n ch ids) = [].
Proof.
  revert n. induction ids as [|message rest IH]; intros n; [reflexivity|].
  rewrite deletions_cons. cbn [sent_ids]. apply IH.
Qed.

(** Minting leaves the logs alone and adds the one ticket it draws. *)
Lemma store_cb_spec (txn exp : string) (e : env) (n : nat) (s : state) :
  let r := _store_cb txn exp e n s in
  (exists key, outcome r = Returned key) /\
  user_messages (final r) = user_messages s /\
  only_tokens (calls r) /\
  tickets_from s (calls r) (final r).
Proof.
  rewrite store_cb_run. cbn [outcome final calls user_messages].
  split; [eauto|]. split; [reflexivity|]. split.
  - intros ev [<-|[]]. eauto.
  - intros key ids. cbn [callback_map].
    destruct (decide (urlsafe_b64encode_nopad (token_bytes e n 6) = key))
      as [<-|Hne].
    + intros _. right. exists 6%nat. now left.
    + rewrite lookup_insert_ne by exact Hne. now left.
Qed.

Lemma category_buttons_spec (txn : string)
    (items : list (string * option string))
    (acc : list InlineKeyboardButton) (e : env) (n : nat) (s : state) :
  let r := category_buttons txn items acc e n s in
  (exists found, outcome r = Returned found) /\
  user_messages (final r) = user_messages s /\
  only_tokens (calls r) /\
  tickets_from s (calls r) (final r).
Proof.
  revert acc n s. induction items as [|[name exp_id] rest IH];
    intros acc n s.
  - cbn. split; [eauto|]. split; [reflexivity|].
    split; [apply only_tokens_nil | apply tickets_from_refl].
  - cbn [category_buttons].
    destruct exp_id as [exp|]; [|apply IH].
    destruct (truthy exp); [|apply IH].
    destruct (store_cb_spec txn exp e n s) as ((key & Hkey) & Hlog & Htok
                                               & Htick).
    rewrite (bind_returned _ _ e n s key Hkey).
    cbn [outcome final calls].
    match goal with
    | |- context [category_buttons txn rest ?acc' e ?n' ?s'] =>
        destruct (IH acc' n' s') as (Hout & Hlog' & Htok' & Htick')
    end.
    split; [exact Hout|]. split; [congruence|].
    split; [now apply only_tokens_app | eapply tickets_from_app; eauto].
Qed.

Lemma keyboard_for_spec (txn : string) (e : env) (n : nat) (s : state) :
  let r := _keyboard_for txn e n s in
  (exists kb, outcome r = Returned kb) /\
  user_messages (final r) = user_messages s /\
  only_tokens (calls r) /\
  tickets_from s (calls r) (final r).
Proof.
  destruct (category_buttons_spec txn (expense_type_ids e) [] e n s)
    as ((found & Hfound) & Hlog & Htok & Htick).
  assert (Hrun : exists kb,
             _keyboard_for txn e n s =
               {| outcome := Returned kb;
                  final :=
                    final (category_buttons txn (expense_type_ids e) [] e n
                             s);
                  calls :=
                    calls (category_buttons txn (expense_type_ids e) [] e n
                             s) |}).
  { eexists. unfold _keyboard_for, bind, ask, ret.
    cbn [outcome final calls app List.length Nat.add].
    rewrite Hfound. cbn [outcome final calls]. rewrite app_nil_r.
    reflexivity. }
  destruct Hrun as [kb Hrun]. intros r. unfold r. rewrite Hrun.
  cbn [outcome final calls]. eauto.
Qed.


Lemma send_message_run (chat : Z) (body : string)
    (kb : option InlineKeyboardMarkup) (e : env) (n : nat) (s : state) :
  send_message chat body kb e n s =
    match telegram_fails e n with
    | Some msg =>
        {| outcome := Raised (ApiException msg); final := s;
           calls := [SendMessage chat body kb (Raised (ApiException msg))] |}
    | None =>
        {| outcome := Returned (telegram_message_id e n); final := s;
           calls := [SendMessage chat body kb
                       (Returned (telegram_message_id e n))] |}
    end.
Proof.
  unfold send_message, perform. destruct (telegram_fails e n); reflexivity.
Qed.

Lemma log_append_run (chat message : Z) (e : env) (n : nat) (s : state)
    (l : list Z) :
  user_messages s !! chat = Some l ->
  log_append chat message e n s =
    {| outcome := Returned tt;
       final := {| user_messages := <[chat := l ++ [message]]>
                                      (user_messages s);
                   callback_map := callback_map s |};
       calls := [] |}.
Proof.
  intros Hl. unfold log_append, bind, get, put. cbn [outcome final calls].
  rewrite Hl. reflexivity.
Qed.

Lemma log_append_missing (chat message : Z) (e : env) (n : nat)
    (s : state) :
  user_messages s !! chat = None ->
  log_append chat message e n s =
    {| outcome := Raised (KeyError (KInt chat)); final := s; calls := [] |}.
Proof.
  intros Hl. unfold log_append, bind, get, put. cbn [outcome final calls].
  rewrite Hl. reflexivity.
Qed.

Lemma send_records_cons (chat : Z) (rec : record) (rest : list record) :
  send_records chat (rec :: rest) =
    (kb <- _keyboard_for (page_id rec) ;;
     sent <- send_message chat (_format_record rec) (Some kb) ;;
     log_append chat sent ;;;
     send_records chat rest).
Proof. reflexivity. Qed.

(** Each record message that is sent is logged, and nothing else touches
    the log of the chat. *)
Lemma send_records_spec (chat : Z) (records : list record) (e : env)
    (n : nat) (s : state) (l : list Z) :
  user_messages s !! chat = Some l ->
  let r := send_records chat records e n s in
  user_messages (final r) !! chat = Some (l ++ sent_ids chat (calls r)) /\
  (forall ch, ch <> chat ->
              user_messages (final r) !! ch = user_messages s !! ch) /\
  tickets_from s (calls r) (final r) /\
  (forall k, outcome r <> Raised (KeyError k)).
Proof.
  revert n s l. induction records as [|rec rest IH]; intros n s l Hl r.
  { unfold r. cbn [send_records ret outcome final calls sent_ids].
    rewrite app_nil_r.
    split; [exact Hl|]. split; [reflexivity|].
    split; [apply tickets_from_refl | discriminate]. }
  destruct (keyboard_for_spec (page_id rec) e n s)
    as ((kb & Hkb) & Hlog & Htok & Htick).
  unfold r. rewrite send_records_cons.
  rewrite (bind_returned _ _ e n s kb Hkb).
  generalize dependent (_keyboard_for (page_id rec) e n s).
  intros kbr Hkb Hlog Htok Htick.
  generalize (List.length (calls kbr) + n)%nat. intros n1.
  destruct (telegram_fails e n1) as [msg|] eqn:Hsend.
  { rewrite bind_raised with (x := ApiException msg)
      by (rewrite send_message_run, Hsend; reflexivity).
    rewrite send_message_run, Hsend.
    cbn [outcome final calls]. rewrite sent_ids_app.
    rewrite (sent_ids_only_tokens chat _ Htok). cbn [sent_ids app].
    rewrite app_nil_r, Hlog.
    split; [exact Hl|]. split; [reflexivity|].
    split; [|discriminate].
    eapply tickets_from_app; [exact Htick|].
    apply tickets_from_same. reflexivity. }
  rewrite bind_returned with (a := telegram_message_id e n1)
    by (rewrite send_message_run, Hsend; reflexivity).
  rewrite send_message_run, Hsend. cbn [outcome final calls].
  assert (Hl1 : user_messages (final kbr) !! chat = Some l)
    by (rewrite Hlog; exact Hl).
  rewrite bind_returned with (a := tt)
    by (rewrite (log_append_run _ _ _ _ _ l Hl1); reflexivity).
  rewrite (log_append_run _ _ _ _ _ l Hl1).
  cbn [outcome final calls List.length Nat.add app].
  rewrite Hlog.
  destruct (IH (S n1)
              {| user_messages :=
                   <[chat := l ++ [telegram_message_id e n1]]>
                     (user_messages s);
                 callback_map := callback_map (final kbr) |}
              (l ++ [telegram_message_id e n1]))
    as (Hlog2 & Hother2 & Htick2 & Hkey2).
  { apply lookup_insert_eq. }
  match type of Hkey2 with
  | forall k, outcome ?t <> _ =>
      generalize dependent t; intros r' Hlog2 Hother2 Htick2 Hkey2
  end.
  split; [|split; [|split]].
  - rewrite Hlog2. rewrite !sent_ids_app.
    rewrite (sent_ids_only_tokens chat _ Htok).
    cbn [sent_ids app]. rewrite Z.eqb_refl. cbn [app].
    now rewrite <- app_assoc.
  - intros ch Hch. rewrite (Hother2 ch Hch).
    apply lookup_insert_ne. congruence.
  - eapply tickets_from_app; [exact Htick|].
    change (SendMessage chat (_format_record rec) (Some kb)
              (Returned (telegram_message_id e n1)) :: calls r')
      with ([SendMessage chat (_format_record rec) (Some kb)
               (Returned (telegram_message_id e n1))] ++ calls r').
    eapply tickets_from_app; [|exact Htick2].
    apply tickets_from_same. reflexivity.
  - exact Hkey2.
Qed.
(** What the fetch and the display that follows it come to, by the answer
    of the data source. *)
Lemma show_uncategorised_run (chat loading : Z) (e : env) (n : nat)
    (s : state) :
  show_uncategorised chat loading e n s =
    match notion_query e n (first_query 50) with
    | QueryOk d =>
        match map normalize_page (take (kept 50 (results d)) (results d))
        with
        | [] =>
            {| outcome := telegram_unit e (S n);
               final := s;
               calls :=
                 [ PostQuery (first_query 50) (Returned d);
                   EditMessageText "✅ Nothing to categorise." chat loading
                     (telegram_unit e (S n)) ] |}
        | records =>
            let r := send_records chat records e (S (S n)) s in
            {| outcome := outcome r;
               final := final r;
               calls :=
                 PostQuery (first_query 50) (Returned d)
                   :: EditMessageText (count_header (List.length records))
                        chat loading (telegram_unit e (S n))
                   :: calls r |}
        end
    | QueryHTTPError msg =>
        {| outcome := Raised (HTTPError msg);
           final := s;
           calls := [PostQuery (first_query 50) (Raised (HTTPError msg))] |}
    | QueryJSONDecodeError msg =>
        {| outcome := telegram_unit e (S n);
           final := s;
           calls :=
             [ PostQuery (first_query 50) (Raised (JSONDecodeError msg));
               EditMessageText
                 "✅ Nothing to categorise. ValueError encountered" chat
                 loading (telegram_unit e (S n)) ] |}
    end.
Proof.
  unfold show_uncategorised, try_except, edit_message_text, perform.
  unfold attempt, bind. cbn [outcome final calls].
  rewrite read_rows_run.
  destruct (notion_query e n (first_query 50)) as [d|msg|msg];
    cbn [outcome final calls ret raise is_ValueError app List.length
         Nat.add]; [|reflexivity..].
  destruct (map normalize_page (take (kept 50 (results d)) (results d)))
    as [|rec records]; [reflexivity|].
  cbn [outcome final calls ret raise app List.length Nat.add].
  destruct (telegram_unit e (S n)) as [[]|x];
    cbn [outcome final calls ret raise app List.length Nat.add];
    reflexivity.
Qed.

Lemma show_uncategorised_spec (chat loading : Z) (e : env) (n : nat)
    (s : state) (l : list Z) :
  user_messages s !! chat = Some l ->
  let r := show_uncategorised chat loading e n s in
  user_messages (final r) !! chat = Some (l ++ sent_ids chat (calls r)) /\
  (forall ch, ch <> chat ->
              user_messages (final r) !! ch = user_messages s !! ch) /\
  tickets_from s (calls r) (final r) /\
  (forall k, outcome r <> Raised (KeyError k)).
Proof.
  intros Hl r. unfold r. rewrite show_uncategorised_run.
  assert (Hquiet : forall (o : reply unit) (cs : list event),
             sent_ids chat cs = [] ->
             (forall k, o <> Raised (KeyError k)) ->
             let r0 := {| outcome := o; final := s; calls := cs |} in
             user_messages (final r0) !! chat
               = Some (l ++ sent_ids chat (calls r0)) /\
             (forall ch, ch <> chat ->
                user_messages (final r0) !! ch = user_messages s !! ch) /\
             tickets_from s (calls r0) (final r0) /\
             (forall k, outcome r0 <> Raised (KeyError k))).
  { intros o cs Hcs Ho. cbn. rewrite Hcs, app_nil_r.
    split; [exact Hl|]. split; [reflexivity|].
    split; [now apply tickets_from_same | exact Ho]. }
  assert (Hunit : forall m k, telegram_unit e m <> Raised (KeyError k)).
  { intros m k. unfold telegram_unit.
    destruct (telegram_fails e m); discriminate. }
  destruct (notion_query e n (first_query 50)) as [d|msg|msg].
  - destruct (map normalize_page (take (kept 50 (results d)) (results d)))
      as [|rec records] eqn:Hrecs.
    + apply Hquiet; [reflexivity | apply Hunit].
    + destruct (send_records_spec chat (rec :: records) e (S (S n)) s l Hl)
        as (Hlog & Hother & Htick & Hkey).
      cbn zeta. cbn [outcome final calls sent_ids].
      split; [exact Hlog|]. split; [exact Hother|]. split; [|exact Hkey].
      intros key ids Hk. destruct (Htick key ids Hk) as [H|[nb Hin]].
      * now left.
      * right. exists nb. now do 2 right.
  - apply Hquiet; [reflexivity | discriminate].
  - apply Hquiet; [reflexivity | apply Hunit].
Qed.

(** The review handler, by whether the placeholder could be sent. *)
Lemma categorise_transactions_run (m : Message) (e : env) (n : nat)
    (s : state) :
  let chat := chat_id m in
  let old := default [] (user_messages s !! chat) in
  let n1 := (List.length old + n)%nat in
  categorise_transactions m e n s =
    match telegram_fails e n1 with
    | Some msg =>
        {| outcome := Raised (ApiException msg);
           final := {| user_messages := <[chat := []]> (user_messages s);
                       callback_map := callback_map s |};
           calls :=
             deletions e n chat old
               ++ [SendMessage chat loading_text None
                     (Raised (ApiException msg))] |}
    | None =>
        let loading := telegram_message_id e n1 in
        let r :=
          show_uncategorised chat loading e (S n1)
            {| user_messages := <[chat := [loading]]> (user_messages s);
               callback_map := callback_map s |} in
        {| outcome := outcome r;
           final := final r;
           calls :=
             deletions e n chat old
               ++ SendMessage chat loading_text None (Returned loading)
               :: calls r |}
    end.
Proof.
  intros chat old n1. unfold categorise_transactions. fold chat.
  unfold send_message, perform, log_append, get, put, raise.
  unfold bind. rewrite clean_previous_batch_run.
  cbn [outcome final calls]. rewrite deletions_length.
  fold old. fold n1.
  destruct (telegram_fails e n1) as [msg|];
    cbn [outcome final calls app List.length Nat.add user_messages
         callback_map]; [reflexivity|].
  rewrite lookup_insert_eq.
  cbn [outcome final calls app List.length Nat.add user_messages
       callback_map].
  rewrite insert_insert_eq. reflexivity.
Qed.

(** C7: at the start of a review batch every id in the chat's log gets a
    [delete_message] call, in order, whatever the earlier deletions
    answered; the clean-up never raises and leaves the log empty, so a
    second clean-up right after it finds nothing to delete; the batch then
    goes on to send its placeholder, and at the end of the handler the log
    holds exactly the ids of the messages sent by this batch. *)
Theorem review_batch_drains_the_log (m : Message) (e : env) (n : nat)
    (s : state) :
  let chat := chat_id m in
  let old := default [] (user_messages s !! chat) in
  let first := clean_previous_batch chat e n s in
  let second :=
    clean_previous_batch chat e (List.length (calls first) + n)%nat
      (final first) in
  let r := categorise_transactions m e n s in
  (outcome first = Returned tt /\
   calls first = deletions e n chat old /\
   user_messages (final first) !! chat = Some []) /\
  (outcome second = Returned tt /\
   calls second = [] /\
   final second = final first) /\
  (exists answer rest,
      calls r =
        deletions e n chat old
          ++ SendMessage chat loading_text None answer :: rest) /\
  user_messages (final r) !! chat = Some (sent_ids chat (calls r)).
Proof.
  intros chat old first second r.
  unfold second, first. rewrite !clean_previous_batch_run.
  cbn [outcome final calls user_messages callback_map].
  split; [|split; [|split]].
  - split; [reflexivity|]. split; [reflexivity|]. apply lookup_insert_eq.
  - rewrite lookup_insert_eq. cbn [default].
    split; [reflexivity|]. split; [reflexivity|].
    now rewrite insert_insert_eq.
  - unfold r. rewrite categorise_transactions_run. fold chat. fold old.
    destruct (telegram_fails e (List.length old + n)); cbn [calls]; eauto.
  - unfold r. rewrite categorise_transactions_run. fold chat. fold old.
    destruct (telegram_fails e (List.length old + n)) as [msg|].
    + cbn [final calls user_messages]. rewrite sent_ids_app.
      rewrite sent_ids_deletions. cbn [sent_ids app].
      apply lookup_insert_eq.
    + cbn zeta. cbn [final calls]. rewrite sent_ids_app.
      rewrite sent_ids_deletions. cbn [sent_ids app].
      rewrite Z.eqb_refl.
      match goal with
      | |- context [show_uncategorised chat ?l e ?k ?s1] =>
          destruct (show_uncategorised_spec chat l e k s1 [l]) as [Hlog _]
      end.
      * cbn [user_messages]. apply lookup_insert_eq.
      * rewrite Hlog. reflexivity.
Qed.

Example second_review_deletes_first_batch :
  let e := Store.serving (Samples.ledger 2) Samples.unlucky in
  let m := {| chat_id := 7; message_id := 1; text := Some "/search" |} in
  let sh := process_new_updates [Search m; Search m] e 0%nat initial in
  map snd sh.2 !! 1%nat
    = Some
        ([ DeleteMessage 7 100 (Returned tt);
           DeleteMessage 7 104 (Returned tt);
           DeleteMessage 7 106 (Returned tt) ]
           ++ drop 3 (default [] (map snd sh.2 !! 1%nat))) /\
  user_messages sh.1 !! 7 = Some [110; 114; 116].
Proof. vm_compute. split; reflexivity. Qed.

(** C8: for every limit, a fetch that the data source answers with no
    rows returns the empty sequence (and the empty index) after that one
    request, without raising; and a review whose fetch is answered so
    edits the placeholder to "Nothing to categorise." and sends nothing
    but the placeholder. *)
Theorem empty_fetch_is_not_an_error :
  (forall (limit : Z) (e : env) (n : nat) (s : state) (d : query_data),
      notion_query e n (first_query limit) = QueryOk d ->
      results d = [] ->
      read_rows limit e n s =
        {| outcome := Returned (Some ([], ∅));
           final := s;
           calls := [PostQuery (first_query limit) (Returned d)] |}) /\
  (forall (m : Message) (e : env) (n : nat) (s : state) (d : query_data),
      let chat := chat_id m in
      let old := default [] (user_messages s !! chat) in
      let n1 := (List.length old + n)%nat in
      let loading := telegram_message_id e n1 in
      telegram_fails e n1 = None ->
      notion_query e (S n1) (first_query 50) = QueryOk d ->
      results d = [] ->
      calls (categorise_transactions m e n s) =
        deletions e n chat old
          ++ [ SendMessage chat loading_text None (Returned loading);
               PostQuery (first_query 50) (Returned d);
               EditMessageText "✅ Nothing to categorise." chat loading
                 (telegram_unit e (S (S n1))) ] /\
      sent_ids chat (calls (categorise_transactions m e n s)) = [loading] /\
      outcome (categorise_transactions m e n s)
        = telegram_unit e (S (S n1))).
Proof.
  split.
  - intros limit e n s d Hq Hres. rewrite read_rows_run, Hq, Hres.
    cbn. rewrite take_nil. reflexivity.
  - intros m e n s d chat old n1 loading Hsend Hq Hres.
    assert (Hrun := categorise_transactions_run m e n s).
    cbn zeta in Hrun. fold chat old n1 in Hrun.
    rewrite Hsend in Hrun. fold loading in Hrun.
    rewrite show_uncategorised_run, Hq, Hres in Hrun.
    rewrite take_nil in Hrun. cbn [map outcome final calls] in Hrun.
    rewrite Hrun. cbn [outcome calls].
    split; [reflexivity|]. split; [|reflexivity].
    rewrite sent_ids_app, sent_ids_deletions. cbn [sent_ids app].
    now rewrite Z.eqb_refl.
Qed.

(** An empty data source, a limit of 50 and a review in chat 7. *)
Lemma empty_fetch_is_not_an_error_witness :
  outcome (read_rows 50 Samples.unlucky 0%nat initial)
    = Returned (Some ([], ∅)) /\
  calls (categorise_transactions
           {| chat_id := 7; message_id := 1; text := Some "/search" |}
           Samples.unlucky 0%nat initial) =
    [ SendMessage 7 loading_text None (Returned 100);
      PostQuery (first_query 50)
        (Returned {| results := []; has_more := Some false;
                     next_cursor := None |});
      EditMessageText "✅ Nothing to categorise." 7 100 (Returned tt) ].
Proof.
  destruct empty_fetch_is_not_an_error as [Hfetch Hreview].
  split.
  - rewrite (Hfetch 50 Samples.unlucky 0%nat initial
               {| results := []; has_more := Some false;
                  next_cursor := None |}); reflexivity.
  - destruct (Hreview
                {| chat_id := 7; message_id := 1; text := Some "/search" |}
                Samples.unlucky 0%nat initial
                {| results := []; has_more := Some false;
                   next_cursor := None |}) as (Hcalls & _).
    + reflexivity.
    + reflexivity.
    + reflexivity.
    + rewrite Hcalls. reflexivity.
Defined.

(** ** What every handler keeps *)

Lemma update_notion_logs (c : CallbackQuery) (t x : string) (e : env)
    (n : nat) (s : state) :
  logs_kept s (final (update_notion c t x e n s)).
Proof.
  intros chat Hchat. revert Hchat.
  update_notion_cases c s; try (intros H; exact H).
  all: intros H; cbn [user_messages];
    destruct (decide (chat_id (message c) = chat)) as [<-|Hne];
    [rewrite lookup_insert_eq; eauto | now rewrite lookup_insert_ne].
Qed.

(** A tap mints nothing: its tickets were all there before. *)
Lemma tap_tickets (c : CallbackQuery) (e : env) (n : nat) (s : state) :
  tickets_from s [] (final (handle_set_type c e n s)).
Proof.
  destruct (tap_cases c e n s) as [(note & alert & ->)|
                                   (key & ids & _ & _ & _ & ->)].
  - apply tickets_from_refl.
  - intros k v. rewrite update_notion_keeps_tickets.
    unfold without_ticket. cbn [callback_map].
    intros Hk. apply lookup_delete_Some in Hk as [_ Hk]. now left.
Qed.

Lemma tap_logs (c : CallbackQuery) (e : env) (n : nat) (s : state) :
  logs_kept s (final (handle_set_type c e n s)).
Proof.
  destruct (tap_cases c e n s) as [(note & alert & ->)|
                                   (key & ids & _ & _ & _ & ->)].
  - intros chat H. exact H.
  - intros chat H. apply update_notion_logs. exact H.
Qed.

Lemma review_spec (m : Message) (e : env) (n : nat) (s : state) :
  let r := categorise_transactions m e n s in
  is_Some (user_messages (final r) !! chat_id m) /\
  logs_kept s (final r) /\
  tickets_from s (calls r) (final r).
Proof.
  intros r. unfold r. rewrite categorise_transactions_run.
  set (chat := chat_id m).
  set (old := default [] (user_messages s !! chat)).
  destruct (telegram_fails e (List.length old + n)) as [msg|].
  - cbn [final calls user_messages]. split; [|split].
    + rewrite lookup_insert_eq. eauto.
    + intros ch Hch. cbn [user_messages].
      destruct (decide (chat = ch)) as [<-|Hne];
        [rewrite lookup_insert_eq; eauto | now rewrite lookup_insert_ne].
    + now apply tickets_from_same.
  - cbn zeta. cbn [final calls].
    match goal with
    | |- context [show_uncategorised chat ?l e ?k ?s1] =>
        destruct (show_uncategorised_spec chat l e k s1 [l])
          as (Hlog & Hother & Htick & _);
        [cbn [user_messages]; apply lookup_insert_eq|];
        set (r1 := show_uncategorised chat l e k s1) in *
    end.
    split; [|split].
    + rewrite Hlog. eauto.
    + intros ch Hch.
      destruct (decide (ch = chat)) as [->|Hne].
      * rewrite Hlog. eauto.
      * rewrite (Hother ch Hne). cbn [user_messages].
        now rewrite lookup_insert_ne.
    + intros key ids Hk. destruct (Htick key ids Hk) as [H|[nb Hin]].
      * left. exact H.
      * right. exists nb. apply in_or_app. right. now right.
Qed.

(** The state and the calls of one delivered update. *)
Lemma handler_spec (u : update) (e : env) (n : nat) (s : state) :
  let r := handler u e n s in
  logs_kept s (final r) /\
  tickets_from s (calls r) (final r) /\
  match u with
  | Search m => is_Some (user_messages (final r) !! chat_id m)
  | _ => tickets_from s [] (final r)
  end.
Proof.
  destruct u as [m|m|c]; cbn [handler].
  - unfold start. run.
    destruct (telegram_fails e n); run;
      (split; [intros ch H; exact H|]);
      (split; [now apply tickets_from_same | apply tickets_from_refl]).
  - destruct (review_spec m e n s) as (Hlog & Hkept & Htick). auto.
  - assert (Hidle : let r := @ret unit tt e n s in
              logs_kept s (final r) /\ tickets_from s (calls r) (final r)
              /\ tickets_from s [] (final r)).
    { cbn. split; [intros ch H; exact H|].
      split; apply tickets_from_refl. }
    destruct (data c) as [d|]; [|exact Hidle].
    destruct (truthy d && startswith d "SET:"); [|exact Hidle].
    split; [apply tap_logs|]. split; [|apply tap_tickets].
    intros key ids Hk. destruct (tap_tickets c e n s key ids Hk) as [H|H].
    + now left.
    + destruct H as [nb []].
Qed.

(** Over a run of updates, the tickets left are those of the start that
    were not minted anew, and those minted on the way. *)
Lemma process_tickets (us : list update) (e : env) (n : nat) (s : state) :
  let reached := process_new_updates us e n s in
  tickets_from s (all_calls reached.2) reached.1.
Proof.
  revert n s. induction us as [|u rest IH]; intros n s.
  - cbn. apply tickets_from_refl.
  - cbn [process_new_updates].
    destruct (handler_spec u e n s) as (_ & Htick & _).
    specialize (IH (List.length (calls (handler u e n s)) + n)%nat
                  (final (handler u e n s))).
    destruct (process_new_updates rest e _ _) as [s' h].
    cbn [fst snd] in *. unfold all_calls. cbn [map snd List.concat].
    eapply tickets_from_app; eauto.
Qed.

(** ** One resolution per ticket *)

(** C1, as the code has it: a ticket resolves once per minting.  For a
    key other than the reserved "disabled", the first tap that carries
    the key of a ticket in the store calls the category update once,
    with the pair of the ticket, and whatever that update and the calls
    after it answer, the key is gone from the store when the handler
    ends; after any further updates in which that key is not minted
    again, a tap with the same key is answered "Invalid/expired button.",
    changes nothing and calls nothing else, the category update included.
    A ticket under the key "disabled" never resolves: the first tap and
    every later one are answered "No categories configured.", change
    nothing and call nothing else. *)
Theorem ticket_resolves_at_most_once (e : env) (n n' : nat) (s : state)
    (key : string) (ids : string * string) (first again : CallbackQuery)
    (between : list update) :
  let r1 := handle_set_type first e n s in
  let later :=
    process_new_updates between e (List.length (calls r1) + n)%nat
      (final r1) in
  callback_map s !! key = Some ids ->
  data first = Some ("SET:" +:+ key) ->
  data again = Some ("SET:" +:+ key) ->
  ~ minted key (all_calls later.2) ->
  (key <> "disabled" ->
   (exists answer rest,
       calls r1 =
         PatchPage ids.1 prop_expense_type [ {| rel_id := ids.2 |} ] answer
           :: rest /\
       forall p q l a, ~ In (PatchPage p q l a) rest) /\
   callback_map (final r1) !! key = None /\
   callback_map later.1 !! key = None /\
   handle_set_type again e n' later.1 =
     {| outcome := telegram_unit e n';
        final := later.1;
        calls := [AnswerCallbackQuery (cq_id again)
                    "Invalid/expired button." false
                    (telegram_unit e n')] |}) /\
  (key = "disabled" ->
   r1 =
     {| outcome := telegram_unit e n;
        final := s;
        calls := [AnswerCallbackQuery (cq_id first)
                    "No categories configured." true
                    (telegram_unit e n)] |} /\
   handle_set_type again e n' later.1 =
     {| outcome := telegram_unit e n';
        final := later.1;
        calls := [AnswerCallbackQuery (cq_id again)
                    "No categories configured." true
                    (telegram_unit e n')] |}).
Proof.
  intros r1 later Hmap Hfirst Hagain Hfresh. split.
  - intros Hkey.
    assert (Hr1 : r1 = update_notion first ids.1 ids.2 e n
                         (without_ticket key s))
      by (now apply (tap_known_run first key)).
    assert (Hgone : callback_map (final r1) !! key = None).
    { rewrite Hr1, update_notion_keeps_tickets. unfold without_ticket.
      cbn [callback_map]. apply lookup_delete_eq. }
    assert (Hlater : callback_map later.1 !! key = None).
    { destruct (callback_map later.1 !! key) as [ids'|] eqn:Hk;
        [|reflexivity].
      destruct (process_tickets between e (List.length (calls r1) + n)%nat
                  (final r1) key ids' Hk) as [Hold|Hnew].
      - congruence.
      - contradiction. }
    split; [|split; [|split]].
    + rewrite Hr1. apply update_notion_patches_once.
    + exact Hgone.
    + exact Hlater.
    + now apply (tap_unknown_run again key).
  - intros ->. split; now apply tap_disabled_run.
Qed.

(** The only button of the sample chat is tapped, tapped again, and after
    a new review (which draws other keys) tapped a third time. *)
Lemma ticket_resolves_at_most_once_witness :
  let r1 :=
    handle_set_type Samples.tap_food Samples.busy 0%nat
      Samples.awaiting_choice in
  let later :=
    process_new_updates [Tap Samples.tap_food; Search Samples.search_7]
      Samples.busy (List.length (calls r1) + 0)%nat (final r1) in
  callback_map Samples.awaiting_choice !! "FRYXGBka"
    = Some ("page-1", "food-id") /\
  ~ minted "FRYXGBka" (all_calls later.2) /\
  callback_map (final r1) !! "FRYXGBka" = None /\
  calls (handle_set_type Samples.tap_food Samples.busy 40%nat later.1) =
    [AnswerCallbackQuery "q1" "Invalid/expired button." false
       (Returned tt)].
Proof.
  intros r1 later.
  assert (Hmap : callback_map Samples.awaiting_choice !! "FRYXGBka"
                   = Some ("page-1", "food-id")) by reflexivity.
  assert (Hfresh : ~ minted "FRYXGBka" (all_calls later.2)).
  { intros [nb Hin]. vm_compute in Hin.
    repeat (destruct Hin as [Hin|Hin]; [discriminate Hin|]).
    exact Hin. }
  destruct (ticket_resolves_at_most_once Samples.busy 0%nat 40%nat
              Samples.awaiting_choice "FRYXGBka" ("page-1", "food-id")
              Samples.tap_food Samples.tap_food
              [Tap Samples.tap_food; Search Samples.search_7])
    as [Hreal _].
  - exact Hmap.
  - reflexivity.
  - reflexivity.
  - exact Hfresh.
  - destruct Hreal as (_ & Hgone & _ & Hagain); [discriminate|].
    split; [exact Hmap|]. split; [exact Hfresh|]. split; [exact Hgone|].
    unfold later, r1. rewrite Hagain. reflexivity.
Defined.

(** C1 as stated fails, in two ways.  Minting does not look at the keys
    in use or used before: here a review shows expense 0 under the key
    "FRYXGBka", the tap on its button resolves the key and removes it,
    the next review draws the same six bytes and stores expense 1 under
    the same key, and a second tap with the data of the first button
    resolves again: it sets the category of expense 1 and is answered
    "Updated ✅", not "Invalid/expired button.".  And a ticket minted
    under the reserved key "disabled" is never removed: the first tap
    and the second are both answered "No categories configured.". *)
Lemma reminted_key_resolves_again :
  (let e := Samples.repeating_draws in
   let shown := process_new_updates [Search Samples.search_7] e 0%nat
                  initial in
   let r1 := handle_set_type Samples.tap_food e 5%nat shown.1 in
   let later := process_new_updates [Search Samples.search_7] e
                  (List.length (calls r1) + 5)%nat (final r1) in
   let r2 := handle_set_type Samples.tap_food e 16%nat later.1 in
   minted "FRYXGBka" (all_calls shown.2) /\
   callback_map shown.1 !! "FRYXGBka" = Some ("row-00", "food-id") /\
   calls r1 =
     [PatchPage "row-00" prop_expense_type [ {| rel_id := "food-id" |} ]
        (Returned tt);
      AnswerCallbackQuery "q1" "Updated ✅" false (Returned tt);
      EditMessageReplyMarkup 7 104 (Returned tt);
      EditMessageText ("<b>Coffee  Run</b>" +:+ newline +:+ newline
                         +:+ "✅ Categorised.") 7 104 (Returned tt)] /\
   callback_map (final r1) !! "FRYXGBka" = None /\
   minted "FRYXGBka" (all_calls later.2) /\
   callback_map later.1 !! "FRYXGBka" = Some ("row-01", "food-id") /\
   calls r2 =
     [PatchPage "row-01" prop_expense_type [ {| rel_id := "food-id" |} ]
        (Returned tt);
      AnswerCallbackQuery "q1" "Updated ✅" false (Returned tt);
      EditMessageReplyMarkup 7 104 (Returned tt);
      EditMessageText ("<b>Coffee  Run</b>" +:+ newline +:+ newline
                         +:+ "✅ Categorised.") 7 104 (Returned tt)]) /\
  (let e := Samples.unlucky in
   let mint := _store_cb "page-1" "food-id" e 0%nat initial in
   let r1 := handle_set_type Samples.tap_disabled e 1%nat (final mint) in
   let r2 := handle_set_type Samples.tap_disabled e 2%nat (final r1) in
   outcome mint = Returned "disabled" /\
   calls r1 =
     [AnswerCallbackQuery "q3" "No categories configured." true
        (Returned tt)] /\
   callback_map (final r1) !! "disabled" = Some ("page-1", "food-id") /\
   calls r2 =
     [AnswerCallbackQuery "q3" "No categories configured." true
        (Returned tt)]).
Proof.
  split.
  - cbv zeta. split; [|split; [|split; [|split; [|split; [|split]]]]].
    + exists 6%nat. vm_compute. tauto.
    + vm_compute. reflexivity.
    + vm_compute. reflexivity.
    + vm_compute. reflexivity.
    + exists 6%nat. vm_compute. tauto.
    + vm_compute. reflexivity.
    + vm_compute. reflexivity.
  - cbv zeta. split; [|split; [|split]]; vm_compute; reflexivity.
Qed.

(** ** The chat of a ticket has a log *)

Lemma grounded_initial : grounded initial [].
Proof.
  split.
  - intros key ids H. cbn in H. now rewrite lookup_empty in H.
  - intros m evs [].
Qed.

Lemma grounded_step (u : update) (e : env) (n : nat) (s : state)
    (h : history) :
  grounded s h ->
  grounded (final (handler u e n s)) (h ++ [(u, calls (handler u e n s))]).
Proof.
  intros [Htickets Hlogs].
  destruct (handler_spec u e n s) as (Hkept & Hfrom & Hkind).
  split.
  - intros key ids Hk.
    assert (Hold : callback_map s !! key = Some ids ->
                   exists m evs,
                     In (Search m, evs)
                       (h ++ [(u, calls (handler u e n s))]) /\
                     minted key evs).
    { intros H. destruct (Htickets key ids H) as (m & evs & Hin & Hm).
      exists m, evs. split; [apply in_or_app; now left | exact Hm]. }
    destruct u as [m|m|c].
    + destruct (Hkind key ids Hk) as [H|[nb []]]. now apply Hold.
    + destruct (Hfrom key ids Hk) as [H|Hm]; [now apply Hold|].
      exists m, (calls (handler (Search m) e n s)).
      split; [apply in_or_app; right; now left | exact Hm].
    + destruct (Hkind key ids Hk) as [H|[nb []]]. now apply Hold.
  - intros m evs Hin. apply in_app_or in Hin as [Hin|[Heq|[]]].
    + apply Hkept. eapply Hlogs; eauto.
    + injection Heq as -> _. exact Hkind.
Qed.

Lemma process_grounded (us : list update) (e : env) (n : nat) (s : state)
    (h : history) :
  grounded s h ->
  let reached := process_new_updates us e n s in
  grounded reached.1 (h ++ reached.2).
Proof.
  revert n s h. induction us as [|u rest IH]; intros n s h Hg.
  - cbn. now rewrite app_nil_r.
  - cbn [process_new_updates].
    specialize (IH (List.length (calls (handler u e n s)) + n)%nat
                  (final (handler u e n s))
                  (h ++ [(u, calls (handler u e n s))])
                  (grounded_step u e n s h Hg)).
    destruct (process_new_updates rest e _ _) as [s' h'].
    cbn [fst snd] in *. now rewrite <- app_assoc in IH.
Qed.

Lemma tap_no_KeyError (c : CallbackQuery) (e : env) (n : nat) (s : state) :
  is_Some (user_messages s !! chat_id (message c)) ->
  forall k, outcome (handle_set_type c e n s) <> Raised (KeyError k).
Proof.
  intros Hlog k.
  destruct (tap_cases c e n s) as [(note & alert & ->)|
                                   (key & ids & _ & _ & _ & ->)].
  - cbn [outcome]. unfold telegram_unit.
    destruct (telegram_fails e n); discriminate.
  - apply update_notion_no_KeyError. exact Hlog.
Qed.

(** C10: in every state reached from start-up, a ticket in the store was
    minted by some review, and the chat of every review that minted it has
    an entry in the message log; so a tap that comes from that chat never
    ends in a [KeyError], the append to the log on the failure path
    included. *)
Theorem ticket_chat_has_a_log (e : env) (us : list update) (key : string)
    (ids : string * string) :
  let reached := process_new_updates us e 0%nat initial in
  callback_map reached.1 !! key = Some ids ->
  (exists m evs, In (Search m, evs) reached.2 /\ minted key evs) /\
  (forall m evs,
      In (Search m, evs) reached.2 -> minted key evs ->
      is_Some (user_messages reached.1 !! chat_id m) /\
      forall (c : CallbackQuery) (n : nat) (k : py_key),
        chat_id (message c) = chat_id m ->
        outcome (handle_set_type c e n reached.1) <> Raised (KeyError k)).
Proof.
  intros reached Hk.
  destruct (process_grounded us e 0%nat initial [] grounded_initial)
    as [Htickets Hlogs].
  cbn [app] in Htickets, Hlogs. fold reached in Htickets, Hlogs.
  split; [now apply (Htickets key ids)|].
  intros m evs Hin _.
  assert (Hlog : is_Some (user_messages reached.1 !! chat_id m))
    by (eapply Hlogs; eauto).
  split; [exact Hlog|].
  intros c n k Hchat. apply tap_no_KeyError. now rewrite Hchat.
Qed.

(** A review in chat 7 over two expenses, then a tap on the button of the
    first of them while Notion refuses the update. *)
Lemma ticket_chat_has_a_log_witness :
  let reached :=
    process_new_updates [Search Samples.search_7] Samples.busy 0%nat
      initial in
  callback_map reached.1 !! "FRYXGBka" = Some ("row-01", "food-id") /\
  is_Some (user_messages reached.1 !! 7) /\
  forall k,
    outcome (handle_set_type Samples.tap_food Samples.busy 9%nat reached.1)
      <> Raised (KeyError k).
Proof.
  intros reached.
  assert (Hk : callback_map reached.1 !! "FRYXGBka"
                 = Some ("row-01", "food-id"))
    by (vm_compute; reflexivity).
  destruct (ticket_chat_has_a_log Samples.busy [Search Samples.search_7]
              "FRYXGBka" ("row-01", "food-id") Hk)
    as [(m & evs & Hin & Hminted) Hchat].
  destruct (Hchat m evs Hin Hminted) as [Hlog Htap].
  destruct Hin as [Heq|[]].
  injection Heq as <- _.
  split; [exact Hk|]. split; [exact Hlog|].
  intros k. apply Htap. reflexivity.
Defined.

(** * Further properties of the code *)

(** ** The normalizer *)

(** X1: when the page has a property named "Date" of type date, the date
    of the record comes from that property alone: its start, or the dash
    placeholder when it holds no date, whatever other date properties the
    page has; otherwise the first date-typed property of the bag is used. *)
Theorem configured_date_takes_precedence (pg : page) (p : prop_obj) :
  lookup_prop prop_date (default [] (pg_properties pg)) = Some p ->
  (has_type p "date" = true ->
   date (normalize_page pg) = or_else (text_of_date p) "—" /\
   (p_date p = None -> date (normalize_page pg) = "—")) /\
  (has_type p "date" = false ->
   date (normalize_page pg) =
     or_else (first_of_type "date" coerce_prop_value
                (default [] (pg_properties pg))) "—").
Proof.
  intros Hp. split; intros Hty.
  - assert (Hd : date (normalize_page pg) = or_else (text_of_date p) "—").
    { unfold normalize_page. cbn [date]. rewrite Hp, Hty. reflexivity. }
    split; [exact Hd|]. intros Hnone. rewrite Hd.
    unfold text_of_date. rewrite Hnone. reflexivity.
  - unfold normalize_page. cbn [date]. rewrite Hp, Hty. reflexivity.
Qed.

Lemma configured_date_takes_precedence_witness :
  date (normalize_page MoreSamples.undated_but_paid) = "—" /\
  date (normalize_page MoreSamples.date_as_text) = "2025-08-01".
Proof.
  split.
  - destruct (configured_date_takes_precedence MoreSamples.undated_but_paid
                (Samples.date_prop None)) as [Hdate _]; [reflexivity|].
    destruct Hdate as [_ Hnone]; [reflexivity|].
    apply Hnone. reflexivity.
  - destruct (configured_date_takes_precedence MoreSamples.date_as_text
                (Samples.bare "rich_text")) as [_ Hother]; [reflexivity|].
    rewrite Hother; reflexivity.
Defined.

(** ** The fetch *)

Lemma kept_bounds (limit : Z) (rows : list page) :
  rows <> [] ->
  (kept limit rows <= List.length rows)%nat /\
  (1 <= kept limit rows)%nat /\
  (1 <= limit -> Z.of_nat (kept limit rows) <= limit) /\
  (limit <= 0 -> kept limit rows = 1%nat).
Proof.
  intros Hne. unfold kept.
  destruct rows as [|row rows]; [congruence|]. cbn [List.length]. lia.
Qed.

(** X2: the records that [read_rows] returns are the rows of the response
    from the first on, normalized, in order; there are no more of them
    than rows in the response, and for a limit of at least 1 no more than
    the limit.  A limit of 0 or less does not give an empty result: as the
    limit is tested after a row is taken, one record is returned whenever
    the response has a row. *)
Theorem read_rows_returns_bounded_prefix (limit : Z) (e : env) (n : nat)
    (s : state) (d : query_data) :
  notion_query e n (first_query limit) = QueryOk d ->
  exists count index,
    outcome (read_rows limit e n s) =
      Returned (Some (map normalize_page (take count (results d)), index)) /\
    (count <= List.length (results d))%nat /\
    (1 <= limit -> Z.of_nat count <= limit) /\
    (limit <= 0 -> results d <> [] -> count = 1%nat).
Proof.
  intros Hq. rewrite read_rows_run, Hq. cbn [outcome].
  destruct (results d) as [|row rows] eqn:Hres.
  - exists 0%nat. eexists. rewrite take_nil.
    split; [reflexivity|]. cbn [List.length]. split; [lia|].
    split; [lia | congruence].
  - destruct (kept_bounds limit (row :: rows)) as (Hle & _ & Hlim & Hone);
      [congruence|].
    exists (kept limit (row :: rows)). eexists.
    split; [reflexivity|]. auto.
Qed.

(** Five expenses in the data source and a limit of 3. *)
Lemma read_rows_returns_bounded_prefix_witness :
  notion_query (Store.serving (Samples.ledger 5) Samples.unlucky) 0%nat
    (first_query 3)
    = QueryOk (Store.query (Samples.ledger 5) (first_query 3)) /\
  exists count index,
    outcome (read_rows 3 (Store.serving (Samples.ledger 5) Samples.unlucky)
               0%nat initial) =
      Returned (Some (map normalize_page
                        (take count
                           (results (Store.query (Samples.ledger 5)
                                       (first_query 3)))), index)) /\
    Z.of_nat count <= 3.
Proof.
  split; [reflexivity|].
  destruct (read_rows_returns_bounded_prefix 3
              (Store.serving (Samples.ledger 5) Samples.unlucky) 0%nat
              initial (Store.query (Samples.ledger 5) (first_query 3)))
    as (count & index & Hout & _ & Hlim & _); [reflexivity|].
  exists count, index. split; [exact Hout|]. apply Hlim. lia.
Defined.

(** X3: whatever the limit and the environment, [read_rows] makes exactly
    one request, for [min(50, limit)] rows, without a cursor and with the
    fixed filter and sort; it leaves the bot's state alone, and it either
    raises the error of that request or returns a pair: it never falls
    out of its loop with [None]. *)
Theorem read_rows_one_request (limit : Z) (e : env) (n : nat) (s : state) :
  let r := read_rows limit e n s in
  (exists answer,
      calls r =
        [PostQuery {| b_page_size := Z.min 50 limit;
                      b_start_cursor := None;
                      b_filter := Some filter;
                      b_sorts := Some sort_query |} answer] /\
      match answer with
      | Returned _ => exists got, outcome r = Returned (Some got)
      | Raised x => outcome r = Raised x /\ is_KeyError x = false
      end) /\
  final r = s.
Proof.
  intros r. unfold r. rewrite read_rows_run.
  assert (Hbody : first_query limit =
                    {| b_page_size := Z.min 50 limit;
                       b_start_cursor := None;
                       b_filter := Some filter;
                       b_sorts := Some sort_query |}).
  { unfold first_query. now rewrite Z.sub_0_r. }
  rewrite <- Hbody.
  destruct (notion_query e n (first_query limit)) as [d|msg|msg];
    cbn [outcome final calls]; (split; [|reflexivity]); eexists;
    (split; [reflexivity|]); cbn; eauto.
Qed.

Lemma index_records_sound (recs : list record)
    (index : gmap string record) (k : string) (r : record) :
  index_records recs index !! k = Some r ->
  (In r recs /\ page_id r = k) \/ index !! k = Some r.
Proof.
  revert index. induction recs as [|x recs IH]; intros index;
    cbn [index_records fold_left].
  - now right.
  - intros H. destruct (IH _ H) as [[Hin Hk]|Hold].
    + left. split; [now right | exact Hk].
    + destruct (decide (page_id x = k)) as [Heq|Hne].
      * rewrite Heq, lookup_insert_eq in Hold. injection Hold as <-.
        left. split; [now left | exact Heq].
      * rewrite lookup_insert_ne in Hold by exact Hne. now right.
Qed.

Lemma index_records_keeps (recs : list record)
    (index : gmap string record) (k : string) :
  is_Some (index !! k) -> is_Some (index_records recs index !! k).
Proof.
  revert index. induction recs as [|x recs IH]; intros index H;
    cbn [index_records fold_left]; [exact H|].
  apply IH. destruct (decide (page_id x = k)) as [<-|Hne].
  - rewrite lookup_insert_eq. eauto.
  - now rewrite lookup_insert_ne.
Qed.

Lemma index_records_skip (recs : list record)
    (index : gmap string record) (k : string) :
  ~ In k (map page_id recs) ->
  index_records recs index !! k = index !! k.
Proof.
  revert index. induction recs as [|x recs IH]; intros index Hk;
    cbn [index_records fold_left]; [reflexivity|].
  cbn [map] in Hk. rewrite IH by (intros H; apply Hk; now right).
  apply lookup_insert_ne. intros Heq. apply Hk. now left.
Qed.

(** X4: the index that [read_rows] returns beside the records has an entry
    for the page id of every record, and every entry is one of the
    records, filed under its own page id; when the page ids of the
    records are all different, looking a record up by its page id gives
    that record back (with a repeated id, the later record is the one
    kept). *)
Theorem read_rows_index_matches_records (limit : Z) (e : env) (n : nat)
    (s : state) (records : list record) (index : gmap string record) :
  outcome (read_rows limit e n s) = Returned (Some (records, index)) ->
  (forall r, In r records -> is_Some (index !! page_id r)) /\
  (forall k r, index !! k = Some r -> In r records /\ page_id r = k) /\
  (NoDup (map page_id records) ->
   forall r, In r records -> index !! page_id r = Some r).
Proof.
  rewrite read_rows_run.
  destruct (notion_query e n (first_query limit)) as [d|msg|msg];
    cbn [outcome]; [|discriminate..].
  intros [= <- <-].
  generalize (map normalize_page (take (kept limit (results d)) (results d))).
  intros recs. split; [|split].
  - generalize (∅ : gmap string record).
    induction recs as [|x recs IH]; intros index r [];
      cbn [index_records fold_left].
    + subst x. apply index_records_keeps. rewrite lookup_insert_eq. eauto.
    + now apply IH.
  - intros k r H. destruct (index_records_sound recs ∅ k r H) as [H'|H'];
      [exact H'|]. now rewrite lookup_empty in H'.
  - generalize (∅ : gmap string record).
    induction recs as [|x recs IH]; intros index Hnd r Hin;
      [destruct Hin|].
    cbn [index_records fold_left]. cbn [map] in Hnd.
    apply NoDup_cons in Hnd as [Hx Hnd].
    destruct Hin as [->|Hin].
    + rewrite index_records_skip.
      * apply lookup_insert_eq.
      * intros Hin. apply Hx. now apply list_elem_of_In.
    + now apply IH.
Qed.

(** Three of five expenses: the index finds the record of expense 4 under
    its page id. *)
Lemma read_rows_index_matches_records_witness :
  let records :=
    map normalize_page
      [Samples.expense 4; Samples.expense 3; Samples.expense 2] in
  outcome (read_rows 3 (Store.serving (Samples.ledger 5) Samples.unlucky)
             0%nat initial)
    = Returned (Some (records, index_records records ∅)) /\
  index_records records ∅ !! "row-04"
    = Some (normalize_page (Samples.expense 4)).
Proof.
  intros records.
  assert (Hout : outcome (read_rows 3 (Store.serving (Samples.ledger 5)
                                          Samples.unlucky) 0%nat initial)
                   = Returned (Some (records, index_records records ∅)))
    by (vm_compute; reflexivity).
  split; [exact Hout|].
  destruct (read_rows_index_matches_records 3
              (Store.serving (Samples.ledger 5) Samples.unlucky) 0%nat
              initial records (index_records records ∅) Hout)
    as (_ & _ & Hfind).
  assert (Hnd : NoDup (map page_id records))
    by (apply (bool_decide_unpack _); vm_compute; exact I).
  apply (Hfind Hnd (normalize_page (Samples.expense 4))).
  left. reflexivity.
Defined.

(** ** Minting and the keyboard *)

Lemma token_length (e : env) (n : nat) :
  String.length (urlsafe_b64encode_nopad (token_bytes e n 6)) = 8%nat.
Proof. reflexivity. Qed.

Lemma SET_length (key : string) :
  String.length ("SET:" +:+ key) = (4 + String.length key)%nat.
Proof. reflexivity. Qed.

(** X5: minting and resolving compose to a round trip: a tap that carries
    the key that [_store_cb] returned for a pair makes the category update
    its first call, for exactly that record and that category, and when
    the handler ends the store is the store from before the minting
    without that key. *)
Theorem minted_ticket_resolves_to_its_pair (txn exp : string) (e : env)
    (n : nat) (s : state) (c : CallbackQuery) (e' : env) (n' : nat) :
  let minted_run := _store_cb txn exp e n s in
  let key := urlsafe_b64encode_nopad (token_bytes e n 6) in
  let r := handle_set_type c e' n' (final minted_run) in
  token_bytes e n 6 <> Samples.disabled_bytes ->
  data c = Some ("SET:" +:+ key) ->
  outcome minted_run = Returned key /\
  (exists answer rest,
      calls r =
        PatchPage txn prop_expense_type [ {| rel_id := exp |} ] answer
          :: rest) /\
  callback_map (final r) = delete key (callback_map s).
Proof.
  intros minted_run key r Hbytes Hdata.
  assert (Hkey : key <> "disabled").
  { intros Heq. apply Hbytes. apply token6_inj.
    - apply token_bytes_length.
    - reflexivity.
    - exact Heq. }
  unfold r, minted_run. rewrite store_cb_run. cbn [outcome final].
  split; [reflexivity|].
  rewrite (tap_known_run c key (txn, exp)); [| exact Hdata | exact Hkey |].
  - split.
    + destruct (update_notion_patches_once c txn exp e' n'
                  (without_ticket key
                     {| user_messages := user_messages s;
                        callback_map :=
                          <[key := (txn, exp)]> (callback_map s) |}))
        as (answer & rest & Hcalls & _).
      exists answer, rest. exact Hcalls.
    + rewrite update_notion_keeps_tickets. unfold without_ticket.
      cbn [callback_map]. apply delete_insert_eq.
  - cbn [callback_map]. apply lookup_insert_eq.
Qed.

(** A ticket for expense "row-01" and the category "food-id", minted at
    tick 3. *)
Lemma minted_ticket_resolves_to_its_pair_witness :
  token_bytes Samples.busy 3 6 <> Samples.disabled_bytes /\
  exists answer rest,
    calls (handle_set_type Samples.tap_food Samples.busy 9%nat
             (final (_store_cb "row-01" "food-id" Samples.busy 3%nat
                       initial))) =
      PatchPage "row-01" prop_expense_type [ {| rel_id := "food-id" |} ]
        answer :: rest.
Proof.
  assert (Hbytes : token_bytes Samples.busy 3 6 <> Samples.disabled_bytes)
    by (vm_compute; discriminate).
  split; [exact Hbytes|].
  destruct (minted_ticket_resolves_to_its_pair "row-01" "food-id"
              Samples.busy 3%nat initial Samples.tap_food Samples.busy
              9%nat Hbytes) as (_ & Hcalls & _).
  - reflexivity.
  - exact Hcalls.
Defined.

(** X6: minting does not check whether the key it draws is in use.  Two
    mintings give the same key exactly when the random source drew the
    same six bytes; then the second pair replaces the first under that key
    and the first ticket is lost; otherwise both tickets are in the
    store. *)
Theorem second_mint_overwrites_equal_key (t1 x1 t2 x2 : string) (e : env)
    (n n' : nat) (s : state) :
  let r1 := _store_cb t1 x1 e n s in
  let r2 := _store_cb t2 x2 e n' (final r1) in
  let k1 := urlsafe_b64encode_nopad (token_bytes e n 6) in
  let k2 := urlsafe_b64encode_nopad (token_bytes e n' 6) in
  outcome r1 = Returned k1 /\ outcome r2 = Returned k2 /\
  (k1 = k2 <-> token_bytes e n 6 = token_bytes e n' 6) /\
  callback_map (final r2) !! k2 = Some (t2, x2) /\
  (k1 <> k2 -> callback_map (final r2) !! k1 = Some (t1, x1)).
Proof.
  intros r1 r2 k1 k2. unfold r2, r1. rewrite !store_cb_run.
  cbn [outcome final callback_map]. fold k1. fold k2.
  split; [reflexivity|]. split; [reflexivity|]. split; [|split].
  - split.
    + intros Heq. apply token6_inj; auto using token_bytes_length.
    + unfold k1, k2. now intros ->.
  - apply lookup_insert_eq.
  - intros Hne. rewrite lookup_insert_ne by congruence.
    apply lookup_insert_eq.
Qed.

Lemma category_buttons_run (txn : string)
    (items : list (string * option string))
    (acc : list InlineKeyboardButton) (e : env) (n : nat) (s : state) :
  exists bs,
    outcome (category_buttons txn items acc e n s) = Returned (acc ++ bs) /\
    map btn_text bs = map fst (configured items) /\
    List.length (calls (category_buttons txn items acc e n s))
      = List.length (configured items) /\
    Forall (button_of txn (final (category_buttons txn items acc e n s)))
      bs /\
    (forall key exp,
        callback_map s !! key = Some (txn, exp) ->
        exists exp',
          callback_map (final (category_buttons txn items acc e n s)) !! key
            = Some (txn, exp')) /\
    (configured items = [] ->
     final (category_buttons txn items acc e n s) = s).
Proof.
  revert acc n s. induction items as [|[name exp_id] rest IH];
    intros acc n s.
  - exists []. cbn [category_buttons ret outcome final calls configured map
                    List.length].
    rewrite app_nil_r. split; [reflexivity|]. split; [reflexivity|].
    split; [reflexivity|]. split; [constructor|]. split; [eauto|].
    reflexivity.
  - cbn [category_buttons configured].
    destruct exp_id as [exp|]; [|apply IH].
    destruct (truthy exp); [|apply IH].
    rewrite bind_returned
      with (a := urlsafe_b64encode_nopad (token_bytes e n 6))
      by (rewrite store_cb_run; reflexivity).
    rewrite store_cb_run. cbn [outcome final calls List.length Nat.add].
    set (key := urlsafe_b64encode_nopad (token_bytes e n 6)).
    set (s1 := {| user_messages := user_messages s;
                  callback_map := <[key := (txn, exp)]> (callback_map s) |}).
    set (b := {| btn_text := name; callback_data := "SET:" +:+ key |}).
    destruct (IH (acc ++ [b]) (S n) s1)
      as (bs & Hout & Htext & Hlen & Hbs & Hkeep & _).
    match type of Hout with
    | outcome ?t = _ =>
        generalize dependent t; intros r' Hout Hlen Hbs Hkeep
    end.
    exists (b :: bs). cbn [outcome final calls map fst List.length app].
    split; [rewrite Hout, <- app_assoc; reflexivity|].
    split; [now rewrite Htext|]. split; [now rewrite Hlen|].
    split; [|split; [|discriminate]].
    + constructor; [|exact Hbs].
      destruct (Hkeep key exp) as [exp' Hexp'];
        [apply lookup_insert_eq|].
      exists key, exp'. split; [reflexivity|].
      split; [apply token_length | exact Hexp'].
    + intros k x Hk.
      destruct (decide (key = k)) as [<-|Hne].
      * apply (Hkeep key exp). apply lookup_insert_eq.
      * apply (Hkeep k x). unfold s1. cbn [callback_map].
        now rewrite lookup_insert_ne.
Qed.

(** X7: [_keyboard_for] never raises and never returns an empty keyboard.
    With no category configured it is the one button "No categories
    configured" carrying the reserved key, and nothing is minted.
    Otherwise it has one button per configured category, in the order of
    the table and labelled with its name; the data of each button is 12
    characters long (within the 64 bytes that Telegram allows) and its key
    is in the store with a pair for this record. *)
Theorem keyboard_has_a_button_per_category (txn : string) (e : env)
    (n : nat) (s : state) :
  let r := _keyboard_for txn e n s in
  let cats := configured (expense_type_ids e) in
  exists kb,
    outcome r = Returned kb /\
    row_width kb = 2%nat /\
    buttons kb <> [] /\
    match cats with
    | [] =>
        buttons kb =
          [ {| btn_text := "No categories configured";
               callback_data := "SET:disabled" |} ] /\
        calls r = [] /\ final r = s
    | _ =>
        map btn_text (buttons kb) = map fst cats /\
        Forall (fun b => String.length (callback_data b) = 12%nat /\
                         button_of txn (final r) b) (buttons kb)
    end.
Proof.
  intros r cats.
  destruct (category_buttons_run txn (expense_type_ids e) [] e n s)
    as (bs & Hout & Htext & Hlen & Hbs & _ & Hsame).
  assert (Hrun :
            r = {| outcome :=
                     Returned
                       {| row_width := 2;
                          buttons :=
                            match bs with
                            | [] =>
                                [ {| btn_text := "No categories configured";
                                     callback_data := "SET:disabled" |} ]
                            | _ => bs
                            end |};
                   final :=
                     final (category_buttons txn (expense_type_ids e) [] e
                              n s);
                   calls :=
                     calls (category_buttons txn (expense_type_ids e) [] e
                              n s) |}).
  { unfold r, _keyboard_for, bind, ask, ret.
    cbn [outcome final calls app List.length Nat.add].
    rewrite Hout. cbn [outcome final calls app]. rewrite app_nil_r.
    reflexivity. }
  rewrite Hrun. fold cats in Htext, Hlen, Hsame.
  generalize dependent (category_buttons txn (expense_type_ids e) [] e n s).
  intros cb Hout Hlen Hbs Hsame _. cbn [outcome final calls].
  eexists. split; [reflexivity|]. cbn [row_width buttons].
  destruct bs as [|b bs]; destruct cats as [|cat cats];
    try discriminate Htext.
  - split; [reflexivity|]. split; [discriminate|].
    split; [reflexivity|].
    split; [|now apply Hsame].
    destruct (calls cb); [reflexivity | discriminate Hlen].
  - split; [reflexivity|]. split; [discriminate|]. split; [exact Htext|].
    eapply List.Forall_impl; [|exact Hbs].
    intros b0 (key & exp & Hdata & Hklen & Hk).
    split; [|exists key, exp; auto].
    rewrite Hdata, SET_length, Hklen. reflexivity.
Qed.

(** One category configured: one button, labelled "Food". *)
Lemma keyboard_has_a_button_per_category_witness :
  exists kb,
    outcome (_keyboard_for "row-01" Samples.busy 3%nat initial)
      = Returned kb /\
    map btn_text (buttons kb) = ["Food"].
Proof.
  destruct (keyboard_has_a_button_per_category "row-01" Samples.busy 3%nat
              initial) as (kb & Hout & _ & _ & Hcats).
  exists kb. split; [exact Hout|].
  change (configured (expense_type_ids Samples.busy))
    with [("Food", "food-id")] in Hcats.
  destruct Hcats as [Htext _]. exact Htext.
Defined.

(** ** The paths of a tap *)

(** Rewrite with what is known of the environment's answers. *)
Ltac known_answers :=
  repeat match goal with
         | H : telegram_fails ?e ?n = _ |- context [telegram_fails ?e ?n] =>
             rewrite H
         | H : notion_patch_fails ?e ?n ?a ?b = _
           |- context [notion_patch_fails ?e ?n ?a ?b] => rewrite H
         | H : user_messages ?s !! ?c = _
           |- context [user_messages ?s !! ?c] => rewrite H
         end.

Ltac run_known := run; repeat (progress known_answers; run).

(** X8: failures of the two edits after a successful update are
    swallowed.  When the update of Notion and its acknowledgement succeed,
    then whatever the removal of the keyboard answers, and provided the
    edit of the text succeeds or else the confirmation sent in its place
    does, the handler returns normally, the only answer to the tap is
    "Updated", no failure message is sent, the ticket is gone and the
    message logs are as before (the confirmation is not logged). *)
Theorem edit_failures_are_swallowed (c : CallbackQuery) (key t x : string)
    (e : env) (n : nat) (s : state) :
  let r := handle_set_type c e n s in
  data c = Some ("SET:" +:+ key) ->
  key <> "disabled" ->
  callback_map s !! key = Some (t, x) ->
  notion_patch_fails e n t x = None ->
  telegram_fails e (S n) = None ->
  match text (message c) with
  | Some _ =>
      telegram_fails e (S (S (S n))) = None \/
      telegram_fails e (S (S (S (S n)))) = None
  | None => telegram_fails e (S (S (S n))) = None
  end ->
  outcome r = Returned tt /\
  user_messages (final r) = user_messages s /\
  callback_map (final r) = delete key (callback_map s) /\
  Forall positive_feedback (calls r).
Proof.
  intros r Hd Hkey Hmap Hpatch Hack Hedit. unfold r.
  rewrite (tap_known_run c key (t, x)) by assumption.
  unfold update_notion, log_append, without_ticket. cbn [fst snd].
  destruct (text (message c)) as [body|].
  - destruct (telegram_fails e (S (S n))) eqn:Hmarkup;
      destruct (telegram_fails e (S (S (S n)))) eqn:Htext;
      [destruct Hedit as [Hedit|Hedit]; [discriminate|]
      | | destruct Hedit as [Hedit|Hedit]; [discriminate|] | ];
      run_known;
      (split; [reflexivity|]); (split; [reflexivity|]);
      (split; [reflexivity|]); repeat constructor.
  - destruct (telegram_fails e (S (S n))) eqn:Hmarkup; run_known;
      (split; [reflexivity|]); (split; [reflexivity|]);
      (split; [reflexivity|]); repeat constructor.
Qed.

Lemma edit_failures_are_swallowed_witness :
  outcome (handle_set_type Samples.tap_food MoreSamples.edit_refused 0%nat
             Samples.awaiting_choice) = Returned tt /\
  Forall positive_feedback
    (calls (handle_set_type Samples.tap_food MoreSamples.edit_refused 0%nat
              Samples.awaiting_choice)).
Proof.
  destruct (edit_failures_are_swallowed Samples.tap_food "FRYXGBka"
              "page-1" "food-id" MoreSamples.edit_refused 0%nat
              Samples.awaiting_choice) as (Hout & _ & _ & Hcalls).
  - reflexivity.
  - discriminate.
  - reflexivity.
  - reflexivity.
  - reflexivity.
  - right. reflexivity.
  - split; [exact Hout | exact Hcalls].
Defined.

Lemma deletions_In (e : env) (n : nat) (chat message : Z) (ids : list Z) :
  In message ids ->
  exists answer, In (DeleteMessage chat message answer)
                   (deletions e n chat ids).
Proof.
  revert n. induction ids as [|x ids IH]; intros n []; 
    rewrite deletions_cons.
  - subst x. eexists. now left.
  - destruct (IH (S n) H) as [answer Hin]. exists answer. now right.
Qed.

(** X9: when Notion refuses the update, the tap is answered "Update
    failed", a failure message with the escaped text of the error is sent
    into the chat, and its id is appended to the chat's log, so that the
    next review of that chat deletes it; the ticket is consumed all the
    same, so the button cannot be used for a second try. *)
Theorem failed_update_is_reported_and_logged (c : CallbackQuery)
    (key t x msg : string) (e : env) (n : nat) (s : state) (l : list Z) :
  let chat := chat_id (message c) in
  let sent := telegram_message_id e (S (S n)) in
  let r := handle_set_type c e n s in
  data c = Some ("SET:" +:+ key) ->
  key <> "disabled" ->
  callback_map s !! key = Some (t, x) ->
  user_messages s !! chat = Some l ->
  notion_patch_fails e n t x = Some msg ->
  telegram_fails e (S n) = None ->
  telegram_fails e (S (S n)) = None ->
  r = {| outcome := Returned tt;
         final := {| user_messages :=
                       <[chat := l ++ [sent]]> (user_messages s);
                     callback_map := delete key (callback_map s) |};
         calls :=
           [ PatchPage t prop_expense_type [ {| rel_id := x |} ]
               (Raised (HTTPError msg));
             AnswerCallbackQuery (cq_id c) "Update failed ❌" false
               (Returned tt);
             SendMessage chat
               ("❌ Failed: <code>" +:+ escape msg +:+ "</code>") None
               (Returned sent) ] |} /\
  forall (m : Message) (e' : env) (n' : nat),
    chat_id m = chat ->
    exists answer,
      In (DeleteMessage chat sent answer)
        (calls (categorise_transactions m e' n' (final r))).
Proof.
  intros chat sent r Hd Hkey Hmap Hlog Hpatch Hack Hsend.
  assert (Hr : r = {| outcome := Returned tt;
                      final := {| user_messages :=
                                    <[chat := l ++ [sent]]> (user_messages s);
                                  callback_map :=
                                    delete key (callback_map s) |};
                      calls :=
                        [ PatchPage t prop_expense_type [ {| rel_id := x |} ]
                            (Raised (HTTPError msg));
                          AnswerCallbackQuery (cq_id c) "Update failed ❌"
                            false (Returned tt);
                          SendMessage chat
                            ("❌ Failed: <code>" +:+ escape msg
                               +:+ "</code>") None (Returned sent) ] |}).
  { unfold r. rewrite (tap_known_run c key (t, x)) by assumption.
    unfold update_notion, log_append, without_ticket. cbn [fst snd].
    fold chat.
    destruct (text (message c)); run_known; reflexivity. }
  split; [exact Hr|].
  intros m e' n' Hm. rewrite Hr. cbn [final].
  pose proof (categorise_transactions_run m e' n'
                {| user_messages := <[chat := l ++ [sent]]> (user_messages s);
                   callback_map := delete key (callback_map s) |}) as Hrun.
  cbn zeta in Hrun. rewrite Hm in Hrun. cbn [user_messages] in Hrun.
  rewrite lookup_insert_eq in Hrun. cbn [default] in Hrun.
  destruct (deletions_In e' n' chat sent (l ++ [sent])) as [answer Hin];
    [apply in_or_app; right; now left|].
  exists answer. rewrite Hrun.
  destruct (telegram_fails e' _); cbn [calls]; apply in_or_app; now left.
Qed.

Lemma failed_update_is_reported_and_logged_witness :
  user_messages
    (final (handle_set_type Samples.tap_food MoreSamples.notion_refuses 0%nat
              Samples.awaiting_choice)) !! 7 = Some [100; 104; 102] /\
  callback_map
    (final (handle_set_type Samples.tap_food MoreSamples.notion_refuses 0%nat
              Samples.awaiting_choice)) !! "FRYXGBka" = None.
Proof.
  destruct (failed_update_is_reported_and_logged Samples.tap_food
              "FRYXGBka" "page-1" "food-id" "404 Client Error: Not Found"
              MoreSamples.notion_refuses 0%nat Samples.awaiting_choice [100; 104])
    as [Hr _].
  - reflexivity.
  - discriminate.
  - reflexivity.
  - reflexivity.
  - reflexivity.
  - reflexivity.
  - reflexivity.
  - rewrite Hr. split; reflexivity.
Defined.

(** X10: the unguarded append of the failure path: if Notion refuses the
    update for a tap from a chat that has no log, the handler answers
    "Update failed", sends the failure message and then ends in
    [KeyError] for the chat id; the ticket is consumed and no log is
    created. *)
Theorem failed_update_without_log_raises (c : CallbackQuery)
    (key t x msg : string) (e : env) (n : nat) (s : state) :
  let chat := chat_id (message c) in
  let r := handle_set_type c e n s in
  data c = Some ("SET:" +:+ key) ->
  key <> "disabled" ->
  callback_map s !! key = Some (t, x) ->
  user_messages s !! chat = None ->
  notion_patch_fails e n t x = Some msg ->
  telegram_fails e (S n) = None ->
  telegram_fails e (S (S n)) = None ->
  outcome r = Raised (KeyError (KInt chat)) /\
  user_messages (final r) = user_messages s /\
  callback_map (final r) !! key = None /\
  exists sent,
    calls r =
      [ PatchPage t prop_expense_type [ {| rel_id := x |} ]
          (Raised (HTTPError msg));
        AnswerCallbackQuery (cq_id c) "Update failed ❌" false
          (Returned tt);
        SendMessage chat
          ("❌ Failed: <code>" +:+ escape msg +:+ "</code>") None
          (Returned sent) ].
Proof.
  intros chat r Hd Hkey Hmap Hlog Hpatch Hack Hsend. unfold r.
  rewrite (tap_known_run c key (t, x)) by assumption.
  unfold update_notion, log_append, without_ticket. cbn [fst snd].
  fold chat.
  destruct (text (message c)); run_known;
    (split; [reflexivity|]); (split; [reflexivity|]);
    (split; [apply lookup_delete_eq|]); eexists; reflexivity.
Qed.

Lemma failed_update_without_log_raises_witness :
  outcome (handle_set_type Samples.tap_food MoreSamples.notion_refuses 0%nat
             MoreSamples.ticket_without_log) = Raised (KeyError (KInt 7)).
Proof.
  destruct (failed_update_without_log_raises Samples.tap_food
              "FRYXGBka" "page-1" "food-id" "404 Client Error: Not Found"
              MoreSamples.notion_refuses 0%nat MoreSamples.ticket_without_log)
    as [Hout _].
  - reflexivity.
  - discriminate.
  - reflexivity.
  - reflexivity.
  - reflexivity.
  - reflexivity.
  - reflexivity.
  - exact Hout.
Defined.

(** ** The review, by what the fetch brings *)

(** X11: only a [ValueError] of the fetch is handled.  When the request
    fails with an HTTP error the handler ends in that error after the
    request, the placeholder keeps its "Gathering" text, and the log of
    the chat holds the placeholder alone; when the body of the response
    cannot be decoded the placeholder is edited to the "ValueError
    encountered" notice and nothing else is sent. *)
Theorem fetch_errors_in_a_review (m : Message) (e : env) (n : nat)
    (s : state) (msg : string) :
  let chat := chat_id m in
  let old := default [] (user_messages s !! chat) in
  let n1 := (List.length old + n)%nat in
  let loading := telegram_message_id e n1 in
  let r := categorise_transactions m e n s in
  telegram_fails e n1 = None ->
  (notion_query e (S n1) (first_query 50) = QueryHTTPError msg ->
   outcome r = Raised (HTTPError msg) /\
   calls r =
     deletions e n chat old
       ++ [ SendMessage chat loading_text None (Returned loading);
            PostQuery (first_query 50) (Raised (HTTPError msg)) ] /\
   user_messages (final r) !! chat = Some [loading]) /\
  (notion_query e (S n1) (first_query 50) = QueryJSONDecodeError msg ->
   outcome r = telegram_unit e (S (S n1)) /\
   calls r =
     deletions e n chat old
       ++ [ SendMessage chat loading_text None (Returned loading);
            PostQuery (first_query 50) (Raised (JSONDecodeError msg));
            EditMessageText
              "✅ Nothing to categorise. ValueError encountered" chat
              loading (telegram_unit e (S (S n1))) ] /\
   user_messages (final r) !! chat = Some [loading]).
Proof.
  intros chat old n1 loading r Hsend.
  assert (Hrun := categorise_transactions_run m e n s).
  cbn zeta in Hrun. fold chat old n1 in Hrun.
  rewrite Hsend in Hrun. fold loading in Hrun.
  rewrite show_uncategorised_run in Hrun. fold r in Hrun.
  split; intros Hq; rewrite Hq in Hrun; rewrite Hrun;
    cbn [outcome final calls user_messages];
    (split; [reflexivity|]); (split; [reflexivity|]);
    apply lookup_insert_eq.
Qed.

Lemma fetch_errors_in_a_review_witness :
  outcome (categorise_transactions Samples.search_7 MoreSamples.notion_down 0%nat
             initial) = Raised (HTTPError "503 Server Error") /\
  calls (categorise_transactions Samples.search_7 MoreSamples.notion_down 0%nat
           initial) =
    [ SendMessage 7 loading_text None (Returned 100);
      PostQuery (first_query 50) (Raised (HTTPError "503 Server Error")) ].
Proof.
  destruct (fetch_errors_in_a_review Samples.search_7 MoreSamples.notion_down 0%nat
              initial "503 Server Error") as [Hhttp _].
  - reflexivity.
  - destruct Hhttp as (Hout & Hcalls & _); [reflexivity|].
    split; [exact Hout | exact Hcalls].
Defined.

Lemma sent_bodies_app (chat : Z) (cs1 cs2 : list event) :
  sent_bodies chat (cs1 ++ cs2)
    = sent_bodies chat cs1 ++ sent_bodies chat cs2.
Proof.
  induction cs1 as [|ev cs1 IH]; [reflexivity|].
  destruct ev as [| ch body kb answer | | | | | |];
    cbn [app sent_bodies]; try exact IH.
  destruct (Z.eqb ch chat); cbn [app]; now rewrite IH.
Qed.

Lemma sent_bodies_only_tokens (chat : Z) (cs : list event) :
  only_tokens cs -> sent_bodies chat cs = [].
Proof.
  induction cs as [|ev cs IH]; intros Hcs; [reflexivity|].
  destruct (Hcs ev (or_introl eq_refl)) as (nb & key & ->).
  cbn [sent_bodies]. apply IH. intros ev Hin. apply Hcs. now right.
Qed.

Lemma sent_bodies_deletions (chat : Z) (e : env) (n : nat) (ch : Z)
    (ids : list Z) :
  sent_bodies chat (deletions e n ch ids) = [].
Proof.
  revert n. induction ids as [|message rest IH]; intros n; [reflexivity|].
  rewrite deletions_cons. cbn [sent_bodies]. apply IH.
Qed.

(** With Telegram accepting every call, each record gets its message, in
    order, and each message is logged. *)
Lemma send_records_all_sent (chat : Z) (records : list record) (e : env)
    (n : nat) (s : state) (l : list Z) :
  (forall k, telegram_fails e k = None) ->
  user_messages s !! chat = Some l ->
  outcome (send_records chat records e n s) = Returned tt /\
  sent_bodies chat (calls (send_records chat records e n s))
    = map _format_record records /\
  List.length (sent_ids chat (calls (send_records chat records e n s)))
    = List.length records.
Proof.
  intros Hok. revert n s l.
  induction records as [|rec rest IH]; intros n s l Hl.
  { cbn. auto. }
  destruct (keyboard_for_spec (page_id rec) e n s)
    as ((kb & Hkb) & Hlog & Htok & _).
  rewrite send_records_cons.
  rewrite (bind_returned _ _ e n s kb Hkb).
  generalize dependent (_keyboard_for (page_id rec) e n s).
  intros kbr Hkb Hlog Htok.
  generalize (List.length (calls kbr) + n)%nat. intros n1.
  rewrite bind_returned with (a := telegram_message_id e n1)
    by (rewrite send_message_run, Hok; reflexivity).
  rewrite send_message_run, Hok. cbn [outcome final calls].
  assert (Hl1 : user_messages (final kbr) !! chat = Some l)
    by (rewrite Hlog; exact Hl).
  rewrite bind_returned with (a := tt)
    by (rewrite (log_append_run _ _ _ _ _ l Hl1); reflexivity).
  rewrite (log_append_run _ _ _ _ _ l Hl1).
  cbn [outcome final calls List.length Nat.add app].
  destruct (IH (S n1)
              {| user_messages :=
                   <[chat := l ++ [telegram_message_id e n1]]>
                     (user_messages (final kbr));
                 callback_map := callback_map (final kbr) |}
              (l ++ [telegram_message_id e n1]))
    as (Hout & Hbodies & Hids).
  { apply lookup_insert_eq. }
  match type of Hout with
  | outcome ?t = _ => generalize dependent t; intros r' Hout Hbodies Hids
  end.
  split; [exact Hout|].
  rewrite sent_bodies_app, sent_ids_app.
  rewrite (sent_bodies_only_tokens chat _ Htok).
  rewrite (sent_ids_only_tokens chat _ Htok).
  cbn [sent_bodies sent_ids app map List.length]. rewrite Z.eqb_refl.
  cbn [List.length]. split; congruence.
Qed.

(** X12: when Telegram accepts every call and the fetch brings at least
    one row, the review ends normally; the messages it sends into the chat
    are the placeholder followed by one message per record, in the order
    of the records, each with the text of [_format_record]; the
    placeholder is edited to the count of the records; and the log of the
    chat holds the placeholder's id and one id per record. *)
Theorem review_sends_a_message_per_record (m : Message) (e : env) (n : nat)
    (s : state) (d : query_data) :
  let chat := chat_id m in
  let old := default [] (user_messages s !! chat) in
  let n1 := (List.length old + n)%nat in
  let loading := telegram_message_id e n1 in
  let records :=
    map normalize_page (take (kept 50 (results d)) (results d)) in
  let r := categorise_transactions m e n s in
  (forall k, telegram_fails e k = None) ->
  notion_query e (S n1) (first_query 50) = QueryOk d ->
  results d <> [] ->
  records <> [] /\
  outcome r = Returned tt /\
  sent_bodies chat (calls r) = loading_text :: map _format_record records /\
  In (EditMessageText (count_header (List.length records)) chat loading
        (Returned tt)) (calls r) /\
  exists ids,
    user_messages (final r) !! chat = Some (loading :: ids) /\
    List.length ids = List.length records.
Proof.
  intros chat old n1 loading records r Hok Hq Hres.
  assert (Hne : records <> []).
  { unfold records. destruct (results d) as [|row rows]; [congruence|].
    destruct (kept_bounds 50 (row :: rows)) as (_ & Hone & _);
      [congruence|].
    destruct (kept 50 (row :: rows)); [lia|]. discriminate. }
  split; [exact Hne|].
  assert (Hrun := categorise_transactions_run m e n s).
  cbn zeta in Hrun. fold chat old n1 in Hrun.
  rewrite Hok in Hrun. fold loading in Hrun.
  rewrite show_uncategorised_run, Hq in Hrun. fold records in Hrun.
  fold r in Hrun.
  destruct records as [|rec rest] eqn:Hrecs; [congruence|].
  cbn zeta in Hrun.
  set (s1 := {| user_messages := <[chat := [loading]]> (user_messages s);
                callback_map := callback_map s |}) in *.
  assert (Hl : user_messages s1 !! chat = Some [loading])
    by apply lookup_insert_eq.
  destruct (send_records_all_sent chat (rec :: rest) e (S (S (S n1))) s1
              [loading] Hok Hl) as (Hout & Hbodies & Hids).
  destruct (send_records_spec chat (rec :: rest) e (S (S (S n1))) s1
              [loading] Hl) as (Hlog & _).
  generalize dependent (send_records chat (rec :: rest) e (S (S (S n1))) s1).
  intros sr Hrun Hout Hbodies Hids Hlog.
  rewrite Hrun. cbn [outcome final calls].
  split; [exact Hout|]. split; [|split].
  - rewrite sent_bodies_app, sent_bodies_deletions.
    cbn [sent_bodies app]. rewrite Z.eqb_refl. now rewrite Hbodies.
  - apply in_or_app. right. right. right. left.
    unfold telegram_unit. rewrite Hok. reflexivity.
  - exists (sent_ids chat (calls sr)). split; [exact Hlog | exact Hids].
Qed.

(** Two expenses in the data source: the placeholder and two record
    messages. *)
Lemma review_sends_a_message_per_record_witness :
  sent_bodies 7 (calls (categorise_transactions Samples.search_7
                          Samples.busy 0%nat initial)) =
    [ loading_text;
      _format_record (normalize_page (Samples.expense 1));
      _format_record (normalize_page (Samples.expense 0)) ].
Proof.
  destruct (review_sends_a_message_per_record Samples.search_7 Samples.busy
              0%nat initial
              (Store.query (Samples.ledger 2) (first_query 50)))
    as (_ & _ & Hbodies & _).
  - reflexivity.
  - reflexivity.
  - vm_compute. discriminate.
  - etransitivity; [exact Hbodies|]. vm_compute. reflexivity.
Defined.

(** ** Delivery *)

Lemma update_notion_notes (c : CallbackQuery) (t x : string) (e : env)
    (n : nat) (s : state) :
  Forall (fun ev => answer_note ev = Some "Ignoring." -> False)
    (calls (update_notion c t x e n s)).
Proof.
  update_notion_cases c s; repeat constructor; cbn; discriminate.
Qed.

(** X13: a tap whose data does not begin with "SET:" (or that has no data)
    has no handler: nothing is called for it, so it is not answered, and
    the state stays as it is.  The "Ignoring." answer of
    [handle_set_type] is therefore never given to a delivered tap. *)
Theorem unmatched_tap_has_no_handler (c : CallbackQuery) (e : env)
    (n : nat) (s : state) :
  (match data c with
   | Some d => truthy d && startswith d "SET:" = false
   | None => True
   end ->
   handler (Tap c) e n s =
     {| outcome := Returned tt; final := s; calls := [] |}) /\
  (forall ev, In ev (calls (handler (Tap c) e n s)) ->
              answer_note ev <> Some "Ignoring.").
Proof.
  split.
  - cbn [handler]. destruct (data c) as [d|]; [|reflexivity].
    intros ->. reflexivity.
  - cbn [handler]. destruct (data c) as [d|] eqn:Hd; [|intros ev []].
    destruct (truthy d && startswith d "SET:") eqn:Hset; [|intros ev []].
    apply andb_prop in Hset as [_ Hset].
    apply startswith_SET in Hset as [key ->].
    destruct (String.eqb_spec key "disabled") as [->|Hkey].
    + rewrite tap_disabled_run by exact Hd.
      intros ev [<-|[]]. discriminate.
    + destruct (callback_map s !! key) as [ids|] eqn:Hmap.
      * rewrite (tap_known_run c key ids) by assumption.
        intros ev Hin Hnote.
        pose proof (update_notion_notes c ids.1 ids.2 e n
                      (without_ticket key s)) as Hall.
        rewrite List.Forall_forall in Hall. exact (Hall ev Hin Hnote).
      * rewrite (tap_unknown_run c key) by assumption.
        intros ev [<-|[]]. discriminate.
Qed.

Lemma unmatched_tap_has_no_handler_witness :
  calls (handler (Tap MoreSamples.tap_other) Samples.unlucky 0%nat
           Samples.awaiting_choice) = [] /\
  calls (handle_set_type MoreSamples.tap_other Samples.unlucky 0%nat
           Samples.awaiting_choice) =
    [AnswerCallbackQuery "q2" "Ignoring." false (Returned tt)].
Proof.
  destruct (unmatched_tap_has_no_handler MoreSamples.tap_other Samples.unlucky 0%nat
              Samples.awaiting_choice) as [Hnone _].
  split.
  - rewrite Hnone; reflexivity.
  - reflexivity.
Defined.

(** ** The bot deletes its own messages only *)

Lemma sent_ids_In (chat message : Z) (cs : list event) :
  In message (sent_ids chat cs) <->
  exists body kb, In (SendMessage chat body kb (Returned message)) cs.
Proof.
  induction cs as [|ev cs IH]; cbn [sent_ids In].
  - split; [intros [] | intros (? & ? & [])].
  - assert (Hskip :
              (forall body kb,
                  ev <> SendMessage chat body kb (Returned message)) ->
              (In message (sent_ids chat cs) <->
               exists body kb,
                 ev = SendMessage chat body kb (Returned message) \/
                 In (SendMessage chat body kb (Returned message)) cs)).
    { intros Hne. rewrite IH. split.
      - intros (body & kb & Hin). exists body, kb. now right.
      - intros (body & kb & [Heq|Hin]); [now apply Hne in Heq|].
        exists body, kb. exact Hin. }
    destruct ev as [| ch body kb [sent|x] | | | | | |];
      try (apply Hskip; intros; discriminate).
    destruct (Z.eqb_spec ch chat) as [->|Hne].
    + cbn [In]. rewrite IH. split.
      * intros [->|(b & k & Hin)]; [exists body, kb; now left|].
        exists b, k. now right.
      * intros (b & k & [Heq|Hin]); [injection Heq as _ _ ->; now left|].
        right. exists b, k. exact Hin.
    + apply Hskip. intros b k Heq. injection Heq as -> _ _ _.
      now apply Hne.
Qed.

Lemma no_deletes_app (cs1 cs2 : list event) :
  no_deletes cs1 -> no_deletes cs2 -> no_deletes (cs1 ++ cs2).
Proof.
  intros H1 H2 chat message answer Hin.
  apply in_app_or in Hin as [Hin|Hin]; [eapply H1 | eapply H2]; eauto.
Qed.

Lemma no_deletes_only_tokens (cs : list event) :
  only_tokens cs -> no_deletes cs.
Proof.
  intros Hcs chat message answer Hin.
  destruct (Hcs _ Hin) as (nb & key & Heq). discriminate.
Qed.

Lemma send_records_no_deletes (chat : Z) (records : list record) (e : env)
    (n : nat) (s : state) :
  no_deletes (calls (send_records chat records e n s)).
Proof.
  revert n s. induction records as [|rec rest IH]; intros n s.
  { intros ch message answer []. }
  destruct (keyboard_for_spec (page_id rec) e n s)
    as ((kb & Hkb) & Hlog & Htok & _).
  rewrite send_records_cons.
  rewrite (bind_returned _ _ e n s kb Hkb).
  generalize dependent (_keyboard_for (page_id rec) e n s).
  intros kbr Hkb Hlog Htok.
  generalize (List.length (calls kbr) + n)%nat. intros n1.
  cbn [calls]. apply no_deletes_app; [now apply no_deletes_only_tokens|].
  destruct (telegram_fails e n1) as [msg|] eqn:Hsend.
  { rewrite bind_raised with (x := ApiException msg)
      by (rewrite send_message_run, Hsend; reflexivity).
    rewrite send_message_run, Hsend. cbn [calls].
    intros ch message answer [Heq|[]]. discriminate. }
  rewrite bind_returned with (a := telegram_message_id e n1)
    by (rewrite send_message_run, Hsend; reflexivity).
  rewrite send_message_run, Hsend. cbn [outcome final calls].
  intros ch message answer [Heq|Hin]; [discriminate|].
  revert Hin.
  destruct (user_messages (final kbr) !! chat) as [l|] eqn:Hl.
  - rewrite bind_returned with (a := tt)
      by (rewrite (log_append_run _ _ _ _ _ l Hl); reflexivity).
    rewrite (log_append_run _ _ _ _ _ l Hl). cbn [outcome final calls app].
    apply IH.
  - rewrite bind_raised with (x := KeyError (KInt chat))
      by (rewrite (log_append_missing _ _ _ _ _ Hl); reflexivity).
    rewrite (log_append_missing _ _ _ _ _ Hl). cbn [calls]. intros [].
Qed.

Lemma show_uncategorised_no_deletes (chat loading : Z) (e : env) (n : nat)
    (s : state) :
  no_deletes (calls (show_uncategorised chat loading e n s)).
Proof.
  rewrite show_uncategorised_run.
  destruct (notion_query e n (first_query 50)) as [d|msg|msg].
  - destruct (map normalize_page (take (kept 50 (results d)) (results d)))
      as [|rec records].
    + intros ch message answer Hin. cbn [calls In] in Hin.
      intuition discriminate.
    + cbn zeta. cbn [calls]. intros ch message answer [Heq|[Heq|Hin]];
        [discriminate | discriminate |].
      eapply send_records_no_deletes; eauto.
  - intros ch message answer Hin. cbn [calls In] in Hin.
    intuition discriminate.
  - intros ch message answer Hin. cbn [calls In] in Hin.
    intuition discriminate.
Qed.

(** The log after [update_notion]: as before, or with the id of the
    failure message, which was sent, at the end of the chat's log. *)
Lemma update_notion_log (c : CallbackQuery) (t x : string) (e : env)
    (n : nat) (s : state) :
  no_deletes (calls (update_notion c t x e n s)) /\
  (user_messages (final (update_notion c t x e n s)) = user_messages s \/
   exists l sent body,
     user_messages s !! chat_id (message c) = Some l /\
     user_messages (final (update_notion c t x e n s))
       = <[chat_id (message c) := l ++ [sent]]> (user_messages s) /\
     In (SendMessage (chat_id (message c)) body None (Returned sent))
       (calls (update_notion c t x e n s))).
Proof.
  update_notion_cases c s;
    (split;
     [ intros ch message answer Hin; cbn [In] in Hin;
       intuition discriminate
     | first [ left; reflexivity
             | right; eexists _, _, _; split; [reflexivity|];
               split; [reflexivity|];
               repeat first [left; reflexivity | right] ] ]).
Qed.

Lemma deletions_only_logged (e : env) (n : nat) (chat : Z) (ids : list Z)
    (ch message : Z) (answer : reply unit) :
  In (DeleteMessage ch message answer) (deletions e n chat ids) ->
  ch = chat /\ In message ids.
Proof.
  revert n. induction ids as [|x ids IH]; intros n; [intros []|].
  rewrite deletions_cons. intros [Heq|Hin].
  - injection Heq as <- <- _. split; [reflexivity | now left].
  - destruct (IH (S n) Hin) as [-> Hm]. split; [reflexivity | now right].
Qed.

Lemma handler_own_messages (u : update) (e : env) (n : nat) (s : state) :
  logged_from s (calls (handler u e n s)) (final (handler u e n s)) /\
  deletes_logged s (calls (handler u e n s)).
Proof.
  assert (Hquiet : forall (r : result unit),
             final r = s -> no_deletes (calls r) ->
             logged_from s (calls r) (final r) /\
             deletes_logged s (calls r)).
  { intros r Hs Hnd. split.
    - intros chat message Hin. left. now rewrite Hs in Hin.
    - intros chat message answer Hin. now apply Hnd in Hin. }
  destruct u as [m|m|c]; cbn [handler].
  - apply Hquiet.
    + unfold start. run. destruct (telegram_fails e n); reflexivity.
    + unfold start. run.
      destruct (telegram_fails e n); intros ch message answer Hin;
        cbn [calls In] in Hin; intuition discriminate.
  - rewrite categorise_transactions_run.
    set (chat := chat_id m).
    set (old := default [] (user_messages s !! chat)).
    destruct (telegram_fails e (List.length old + n)) as [msg|].
    + cbn [final calls]. split.
      * intros ch message. unfold log_of. cbn [user_messages].
        destruct (decide (chat = ch)) as [<-|Hne].
        -- rewrite lookup_insert_eq. intros [].
        -- rewrite lookup_insert_ne by exact Hne. now left.
      * intros ch message answer Hin.
        apply in_app_or in Hin as [Hin|[Heq|[]]]; [|discriminate].
        apply deletions_only_logged in Hin as [-> Hin]. exact Hin.
    + cbn zeta. cbn [final calls].
      match goal with
      | |- context [show_uncategorised chat ?l e ?k ?s1] =>
          destruct (show_uncategorised_spec chat l e k s1 [l])
            as (Hlog & Hother & _);
          [cbn [user_messages]; apply lookup_insert_eq|];
          pose proof (show_uncategorised_no_deletes chat l e k s1) as Hnd;
          generalize dependent (show_uncategorised chat l e k s1);
          intros r1 Hlog Hother Hnd
      end.
      split.
      * intros ch message. unfold log_of.
        destruct (decide (ch = chat)) as [->|Hne].
        -- rewrite Hlog. cbn [default]. intros Hin. right.
           rewrite sent_ids_app, sent_ids_deletions. cbn [sent_ids app].
           now rewrite Z.eqb_refl.
        -- rewrite (Hother ch Hne). cbn [user_messages].
           rewrite lookup_insert_ne by congruence. now left.
      * intros ch message answer Hin.
        apply in_app_or in Hin as [Hin|[Heq|Hin]];
          [|discriminate|now apply Hnd in Hin].
        apply deletions_only_logged in Hin as [-> Hin]. exact Hin.
  - assert (Hidle : logged_from s (calls (@ret unit tt e n s))
                      (final (@ret unit tt e n s)) /\
                    deletes_logged s (calls (@ret unit tt e n s))).
    { apply Hquiet; [reflexivity | intros ch message answer []]. }
    destruct (data c) as [d|]; [|exact Hidle].
    destruct (truthy d && startswith d "SET:"); [|exact Hidle].
    destruct (tap_cases c e n s) as [(note & alert & ->)|
                                     (key & ids & _ & _ & _ & ->)].
    + apply Hquiet; [reflexivity|].
      intros ch message answer [Heq|[]]. discriminate.
    + destruct (update_notion_log c ids.1 ids.2 e n (without_ticket key s))
        as [Hnd Hlog].
      split; [|intros ch logged answer Hin; now apply Hnd in Hin].
      intros ch logged. unfold log_of.
      destruct Hlog as [->|(l & sent & body & Hl & -> & Hin)];
        [now left|].
      cbn [without_ticket user_messages] in *.
      destruct (decide (chat_id (message c) = ch)) as [<-|Hne].
      * rewrite lookup_insert_eq, Hl. cbn [default]. intros Hm.
        apply in_app_or in Hm as [Hm|[<-|[]]]; [now left|].
        right. apply sent_ids_In. eauto.
      * rewrite lookup_insert_ne by exact Hne. now left.
Qed.

Lemma own_messages_step (u : update) (e : env) (n : nat) (s : state)
    (h : history) :
  own_messages s h ->
  own_messages (final (handler u e n s))
    (h ++ [(u, calls (handler u e n s))]).
Proof.
  intros [Hlogs Hdel].
  destruct (handler_own_messages u e n s) as [Hfrom Hlogged].
  assert (Hcalls : all_calls (h ++ [(u, calls (handler u e n s))])
                     = all_calls h ++ calls (handler u e n s)).
  { unfold all_calls. rewrite map_app, concat_app. cbn.
    now rewrite app_nil_r. }
  unfold own_messages. rewrite Hcalls. split.
  - intros chat message Hin. rewrite sent_ids_app. apply in_or_app.
    destruct (Hfrom chat message Hin) as [Hold|Hnew]; auto.
  - intros chat message answer Hin. rewrite sent_ids_app.
    apply in_or_app. apply in_app_or in Hin as [Hin|Hin].
    + left. eapply Hdel; eauto.
    + left. apply Hlogs. eapply Hlogged; eauto.
Qed.

Lemma process_own_messages (us : list update) (e : env) (n : nat)
    (s : state) (h : history) :
  own_messages s h ->
  own_messages (process_new_updates us e n s).1
    (h ++ (process_new_updates us e n s).2).
Proof.
  revert n s h. induction us as [|u rest IH]; intros n s h Hown.
  - cbn. now rewrite app_nil_r.
  - cbn [process_new_updates].
    specialize (IH (List.length (calls (handler u e n s)) + n)%nat
                  (final (handler u e n s))
                  (h ++ [(u, calls (handler u e n s))])
                  (own_messages_step u e n s h Hown)).
    destruct (process_new_updates rest e _ _) as [s' h'].
    cbn [fst snd] in *. now rewrite <- app_assoc in IH.
Qed.

(** X14: the bot deletes its own messages only.  Whatever updates are
    delivered from start-up and whatever the environment answers, every
    [delete_message] call is for a message that an earlier or the same
    run of calls sent into that chat and Telegram accepted, and every id
    in a chat's log is the id of such a message. *)
Theorem only_own_messages_are_deleted (e : env) (us : list update) :
  let reached := process_new_updates us e 0%nat initial in
  (forall chat message answer,
      In (DeleteMessage chat message answer) (all_calls reached.2) ->
      exists body kb,
        In (SendMessage chat body kb (Returned message))
          (all_calls reached.2)) /\
  (forall chat l message,
      user_messages reached.1 !! chat = Some l -> In message l ->
      exists body kb,
        In (SendMessage chat body kb (Returned message))
          (all_calls reached.2)).
Proof.
  intros reached.
  assert (Hinit : own_messages initial []).
  { split.
    - intros chat message. unfold log_of. cbn [initial user_messages].
      rewrite lookup_empty. intros [].
    - intros chat message answer []. }
  destruct (process_own_messages us e 0%nat initial [] Hinit)
    as [Hlogs Hdel].
  cbn [app] in Hlogs, Hdel. fold reached in Hlogs, Hdel. split.
  - intros chat message answer Hin. apply sent_ids_In. eapply Hdel; eauto.
  - intros chat l message Hl Hin. apply sent_ids_In. apply Hlogs.
    unfold log_of. now rewrite Hl.
Qed.

(** Two reviews in a row: the second deletes the placeholder of the
    first, which the bot had sent. *)
Lemma only_own_messages_are_deleted_witness :
  exists body kb,
    In (SendMessage 7 body kb (Returned 100))
      (all_calls
         (process_new_updates
            [Search Samples.search_7; Search Samples.search_7]
            Samples.busy 0%nat initial).2).
Proof.
  apply (proj1 (only_own_messages_are_deleted Samples.busy
                  [Search Samples.search_7; Search Samples.search_7])
           7 100 (Returned tt)).
  vm_compute. repeat first [left; reflexivity | right].
Defined.

(** ** What a record's message shows *)

Lemma truthy_or_else (x d : string) :
  truthy d = true -> truthy (or_else x d) = true.
Proof. intros Hd. unfold or_else. destruct x; [exact Hd | reflexivity]. Qed.

(** X15: the tests of [_format_record] for an empty date or amount never
    fire on a record made by [normalize_page], which fills them with the
    dash placeholder: the message of such a record always has the title
    line, a "Date:" line and an "Amount:" line, in that order, followed by
    the link line exactly when the page has a non-empty url. *)
Theorem normalized_record_shows_date_and_amount (pg : page) :
  let rec := normalize_page pg in
  record_parts rec =
    [ "<b>" +:+ escape (title rec) +:+ "</b>";
      "Date: " +:+ escape (date rec);
      "Amount: " +:+ escape (amount rec) ]
      ++ (if truthy (default EmptyString (pg_url pg))
          then [ "<a href=" +:+ String (ascii_of_nat 34) (rec_url rec)
                   +:+ String (ascii_of_nat 34) ">Open in Notion</a>" ]
          else []).
Proof.
  intros rec. unfold record_parts.
  assert (Hd : truthy (date rec) = true)
    by (apply truthy_or_else; reflexivity).
  assert (Ha : truthy (amount rec) = true)
    by (apply truthy_or_else; reflexivity).
  rewrite Hd, Ha. cbn [rec_url rec normalize_page].
  destruct (truthy (default EmptyString (pg_url pg))); reflexivity.
Qed.

(** ** Tickets are only removed by a tap *)

Lemma tickets_kept_refl (s : state) : tickets_kept s s.
Proof. intros key H. exact H. Qed.

Lemma tickets_kept_trans (s1 s2 s3 : state) :
  tickets_kept s1 s2 -> tickets_kept s2 s3 -> tickets_kept s1 s3.
Proof. intros H1 H2 key H. auto. Qed.

Lemma tickets_kept_same (s s' : state) :
  callback_map s' = callback_map s -> tickets_kept s s'.
Proof. intros Heq key H. now rewrite Heq. Qed.

Lemma store_cb_keeps (txn exp : string) (e : env) (n : nat) (s : state) :
  tickets_kept s (final (_store_cb txn exp e n s)).
Proof.
  rewrite store_cb_run. cbn [final]. intros key H. cbn [callback_map].
  destruct (decide (urlsafe_b64encode_nopad (token_bytes e n 6) = key))
    as [<-|Hne].
  - rewrite lookup_insert_eq. eauto.
  - now rewrite lookup_insert_ne.
Qed.

Lemma category_buttons_keeps (txn : string)
    (items : list (string * option string))
    (acc : list InlineKeyboardButton) (e : env) (n : nat) (s : state) :
  tickets_kept s (final (category_buttons txn items acc e n s)).
Proof.
  revert acc n s. induction items as [|[name exp_id] rest IH];
    intros acc n s.
  - apply tickets_kept_refl.
  - cbn [category_buttons].
    destruct exp_id as [exp|]; [|apply IH].
    destruct (truthy exp); [|apply IH].
    rewrite bind_returned
      with (a := urlsafe_b64encode_nopad (token_bytes e n 6))
      by (rewrite store_cb_run; reflexivity).
    cbn [final]. eapply tickets_kept_trans; [apply store_cb_keeps|].
    apply IH.
Qed.

Lemma keyboard_for_keeps (txn : string) (e : env) (n : nat) (s : state) :
  tickets_kept s (final (_keyboard_for txn e n s)).
Proof.
  destruct (category_buttons_run txn (expense_type_ids e) [] e n s)
    as (bs & Hout & _).
  pose proof (category_buttons_keeps txn (expense_type_ids e) [] e n s)
    as Hkeep.
  unfold _keyboard_for, bind, ask, ret.
  cbn [outcome final calls app List.length Nat.add].
  rewrite Hout. cbn [outcome final calls]. exact Hkeep.
Qed.

Lemma send_records_keeps (chat : Z) (records : list record) (e : env)
    (n : nat) (s : state) :
  tickets_kept s (final (send_records chat records e n s)).
Proof.
  revert n s. induction records as [|rec rest IH]; intros n s.
  { apply tickets_kept_refl. }
  destruct (keyboard_for_spec (page_id rec) e n s) as ((kb & Hkb) & _).
  pose proof (keyboard_for_keeps (page_id rec) e n s) as Hkeep.
  rewrite send_records_cons.
  rewrite (bind_returned _ _ e n s kb Hkb).
  generalize dependent (_keyboard_for (page_id rec) e n s).
  intros kbr Hkb Hkeep.
  generalize (List.length (calls kbr) + n)%nat. intros n1.
  cbn [final]. eapply tickets_kept_trans; [exact Hkeep|].
  destruct (telegram_fails e n1) as [msg|] eqn:Hsend.
  { rewrite bind_raised with (x := ApiException msg)
      by (rewrite send_message_run, Hsend; reflexivity).
    rewrite send_message_run, Hsend. apply tickets_kept_refl. }
  rewrite bind_returned with (a := telegram_message_id e n1)
    by (rewrite send_message_run, Hsend; reflexivity).
  rewrite send_message_run, Hsend. cbn [outcome final calls].
  destruct (user_messages (final kbr) !! chat) as [l|] eqn:Hl.
  - rewrite bind_returned with (a := tt)
      by (rewrite (log_append_run _ _ _ _ _ l Hl); reflexivity).
    rewrite (log_append_run _ _ _ _ _ l Hl). cbn [outcome final calls].
    eapply tickets_kept_trans; [|apply IH].
    now apply tickets_kept_same.
  - rewrite bind_raised with (x := KeyError (KInt chat))
      by (rewrite (log_append_missing _ _ _ _ _ Hl); reflexivity).
    rewrite (log_append_missing _ _ _ _ _ Hl). apply tickets_kept_refl.
Qed.

(** X16: a review never removes a ticket.  Every key that is in the store
    when [/search] arrives is still in the store when the handler ends,
    however it ends: the tickets of the buttons of the previous batch,
    whose messages the review deletes, stay resolvable, and the store
    only shrinks by taps. *)
Theorem review_keeps_old_tickets (m : Message) (e : env) (n : nat)
    (s : state) (key : string) :
  is_Some (callback_map s !! key) ->
  is_Some (callback_map (final (categorise_transactions m e n s)) !! key).
Proof.
  revert key. change (tickets_kept s
                        (final (categorise_transactions m e n s))).
  rewrite categorise_transactions_run.
  destruct (telegram_fails e _) as [msg|]; cbn zeta; cbn [final].
  - now apply tickets_kept_same.
  - rewrite show_uncategorised_run.
    destruct (notion_query e _ (first_query 50)) as [d|msg|msg];
      try (now apply tickets_kept_same).
    destruct (map normalize_page (take (kept 50 (results d)) (results d)))
      as [|rec records]; [now apply tickets_kept_same|].
    cbn zeta. cbn [final].
    eapply tickets_kept_trans; [|apply send_records_keeps].
    now apply tickets_kept_same.
Qed.

(** The ticket of the sample chat's button outlives a new review of the
    chat, which deletes the message that carries the button. *)
Lemma review_keeps_old_tickets_witness :
  is_Some (callback_map Samples.awaiting_choice !! "FRYXGBka") /\
  is_Some
    (callback_map
       (final (categorise_transactions Samples.search_7 Samples.busy 0%nat
                 Samples.awaiting_choice)) !! "FRYXGBka") /\
  exists answer,
    In (DeleteMessage 7 104 answer)
      (calls (categorise_transactions Samples.search_7 Samples.busy 0%nat
                Samples.awaiting_choice)).
Proof.
  assert (H : is_Some (callback_map Samples.awaiting_choice !! "FRYXGBka"))
    by (vm_compute; eauto).
  split; [exact H|]. split.
  - exact (review_keeps_old_tickets Samples.search_7 Samples.busy 0%nat
             Samples.awaiting_choice "FRYXGBka" H).
  - exists (Returned tt). vm_compute. right. left. reflexivity.
Defined.
